(** * Peer-approval workflow of the aura server (src/index.js)

    A shallow embedding of the four workflow routes of the Express
    application: [/api/add-event], [/api/dashboard-results],
    [/api/pending-reviews] and [/api/review-event]. The route
    [/api/get-default-group] only reads a user's first group and is not
    part of the workflow; it is modelled apart, after the four routes.

    The record store behind the [database] client is modelled as four
    tables held as lists of rows, in the order the store returns them.
    A route is a computation over that store which can stop early with
    an HTTP response, exactly as the source does with
    [return res.status(..).json(..)].

    Conventions of the embedding:
    - identifiers generated by the store ([event_id], [pending_id]) are
      integers handed out by a sequence; [user_id], [group_id] and names
      are strings;
    - a JSON body field or query parameter that may be absent is an
      [option]; [None] is JavaScript's [undefined];
    - every call to the store can fail on its own: a route receives a
      [faults] oracle giving, for the n-th store call of the request, the
      error the store reports ([None]: the call is served);
    - JavaScript numbers that result from a division are binary64 floats
      ([PrimFloat]); points are integers, [None] standing for the [NaN]
      that [parseInt] returns and the store keeps as SQL NULL. *)

From Stdlib Require Import ZArith String Ascii List Bool Lia PrimFloat Uint63.
From stdpp Require Import gmap strings list fin_maps sorting.

Open Scope Z_scope.
Open Scope string_scope.
Open Scope list_scope.

(** ** Tables *)

(** [users.group_name]: the source accepts an array and a single value
    (line 52), and guards against an absent value in a sibling route
    (line 213). *)
Inductive membership :=
| MNull
| MOne (g : string)
| MMany (gs : list string).

Record user_row := {
  u_user_id : string;
  u_name : string;
  u_group_name : membership
}.

Record event_row := {
  e_event_id : Z;
  e_name : string;
  e_user_id : string;
  e_aura_points : option Z;
  e_description : string;
  e_group_name : string;
  e_is_approved : bool
}.

(** [groups.people_map] is a JSON object reviewer id -> reviewer name, or
    NULL. *)
Record group_row := {
  g_group_id : string;
  g_people_map : option (gmap string string)
}.

Record pending_row := {
  p_pending_id : Z;
  p_event_id : Z;
  p_approved : bool;
  p_reviewed : bool;
  p_name_of_nominee : string;
  p_user_id_of_nominee : string;
  p_name_of_reviewer : string;
  p_user_id_of_reviewer : string
}.

Record db := {
  users : list user_row;
  events : list event_row;
  groups : list group_row;
  pending : list pending_row;
  next_event_id : Z;
  next_pending_id : Z
}.

Definition with_events (evs : list event_row) (nxt : Z) (d : db) : db :=
  {| users := users d; events := evs; groups := groups d;
     pending := pending d; next_event_id := nxt;
     next_pending_id := next_pending_id d |}.

Definition with_pending (ps : list pending_row) (nxt : Z) (d : db) : db :=
  {| users := users d; events := events d; groups := groups d;
     pending := ps; next_event_id := next_event_id d;
     next_pending_id := nxt |}.

(** ** Responses *)

Record exact_match := {
  em_group : string;
  em_matches : bool;
  em_submittedLength : nat;
  em_groupLength : nat
}.

Record debug_payload := {
  dbg_userGroups : list (option string);
  dbg_submittedGroupName : option string;
  dbg_name : string;
  dbg_exactMatches : list exact_match
}.

Record top_user := {
  tu_name : string;
  tu_total_aura_points : Z
}.

Inductive body :=
| Error (error : string)
| ErrorDebug (error : string) (debug : debug_payload)
| Message (message : string)
| TopUsers (rows : list top_user)
| Combined (rows : list (pending_row * event_row))
| Reviewed (message : string) (approvalPercentage : float) (wasApproved : bool).

Record response := {
  status : Z;
  json : body
}.

(** ** Routes as computations over the store *)

Inductive result (A : Type) :=
| Data (data : A)
| Failed (message : string).
Arguments Data {A} data.
Arguments Failed {A} message.

Definition faults := nat → option string.

Definition reliable : faults := λ _, None.

(** [inl r]: the route has sent [r] and returned. *)
Definition handler (A : Type) : Type := db → (response + A) * db.

#[global] Instance handler_ret : MRet handler := λ A a d, (inr a, d).

#[global] Instance handler_bind : MBind handler := λ A B k m d,
  match m d with
  | (inl r, d') => (inl r, d')
  | (inr a, d') => k a d'
  end.

Definition reply {A} (code : Z) (b : body) : handler A :=
  λ d, (inl {| status := code; json := b |}, d).

(** A read of the store. *)
Definition select {A} (fault : option string) (q : db → result A)
  : handler (result A) :=
  λ d, match fault with
       | Some m => (inr (Failed m), d)
       | None => (inr (q d), d)
       end.

(** A write: on a fault nothing is written. *)
Definition write {A} (fault : option string) (w : db → result A * db)
  : handler (result A) :=
  λ d, match fault with
       | Some m => (inr (Failed m), d)
       | None => let '(r, d') := w d in (inr r, d')
       end.

Definition run (m : handler response) (d : db) : response * db :=
  match m d with
  | (inl r, d') => (r, d')
  | (inr r, d') => (r, d')
  end.

(** [.single()]: an error unless exactly one row matches. *)
Definition single_error : string :=
  "JSON object requested, multiple (or no) rows returned".

Definition single {A} (rows : list A) : result A :=
  match rows with
  | [r] => Data r
  | _ => Failed single_error
  end.

Definition null_keys_error : string :=
  "Cannot convert undefined or null to object".

(** ** /api/review-event (lines 289-369) *)

Record review_body := {
  pendingId : option Z;
  eventId : option Z;
  isApproved : option bool;
  groupId : option string
}.

Definition decide_row (appr : bool) (p : pending_row) : pending_row :=
  {| p_pending_id := p_pending_id p; p_event_id := p_event_id p;
     p_approved := appr; p_reviewed := true;
     p_name_of_nominee := p_name_of_nominee p;
     p_user_id_of_nominee := p_user_id_of_nominee p;
     p_name_of_reviewer := p_name_of_reviewer p;
     p_user_id_of_reviewer := p_user_id_of_reviewer p |}.

(** [.from('pending').update({approved, reviewed: true}).eq('pending_id', pid)] *)
Definition update_pending (pid : Z) (appr : bool) (ps : list pending_row)
  : list pending_row :=
  map (λ p, if decide (p_pending_id p = pid) then decide_row appr p else p) ps.

Definition approve_row (e : event_row) : event_row :=
  {| e_event_id := e_event_id e; e_name := e_name e;
     e_user_id := e_user_id e; e_aura_points := e_aura_points e;
     e_description := e_description e; e_group_name := e_group_name e;
     e_is_approved := true |}.

(** [.from('events').update({is_approved: true}).eq('event_id', eid)] *)
Definition approve_event (eid : Z) (evs : list event_row) : list event_row :=
  map (λ e, if decide (e_event_id e = eid) then approve_row e else e) evs.

(** [.from('groups').select('people_map').eq('group_id', gid).single()] *)
Definition group_by_id (gid : string) (d : db) : result group_row :=
  single (filter (λ g, g_group_id g = gid) (groups d)).

(** [.from('pending').select('*').eq('event_id', eid).eq('approved', true)] *)
Definition approved_ballots (eid : Z) (ps : list pending_row)
  : list pending_row :=
  filter (λ p, p_event_id p = eid ∧ p_approved p = true) ps.

(** A length as a JavaScript number. *)
Definition js_length (n : nat) : float :=
  PrimFloat.of_uint63 (Uint63.of_Z (Z.of_nat n)).

(** [(approvedCount / totalGroupMembers) * 100], as the binary64 value the
    route computes and hands to [res.json] (which writes [NaN] and the
    infinities of an empty roster as [null]). *)
Definition percentage (approvedCount totalGroupMembers : nat) : float :=
  PrimFloat.mul
    (PrimFloat.div (js_length approvedCount) (js_length totalGroupMembers))
    100%float.

(** [approvalPercentage >= 50] *)
Definition reaches_quorum (approvalPercentage : float) : bool :=
  PrimFloat.leb 50%float approvalPercentage.

Definition missing_parameters : string := "Missing required parameters".
Definition review_processed : string := "Review processed successfully".

Definition review_event (flt : faults) (req : review_body) : handler response :=
  match pendingId req, eventId req, isApproved req, groupId req with
  | Some pid, Some eid, Some appr, Some gid =>
    if (pid =? 0)%Z || (eid =? 0)%Z || bool_decide (gid = "") then
      reply 400 (Error missing_parameters)
    else
      (* 1. update the pending entry *)
      upd ← write (flt 0%nat)
              (λ d, (Data tt,
                     with_pending (update_pending pid appr (pending d))
                                  (next_pending_id d) d));
      match upd with
      | Failed m => reply 500 (Error m)
      | Data _ =>
        (* 2. total number of people in the group *)
        grp ← select (flt 1%nat) (group_by_id gid);
        match grp with
        | Failed m => reply 500 (Error m)
        | Data groupData =>
          match g_people_map groupData with
          | None => reply 500 (Error null_keys_error)
          | Some people_map =>
            let totalGroupMembers := size people_map in
            (* 3. approved reviews for this event *)
            cnt ← select (flt 2%nat)
                    (λ d, Data (approved_ballots eid (pending d)));
            match cnt with
            | Failed m => reply 500 (Error m)
            | Data approvedData =>
              (* 4. approval percentage *)
              let approvedCount := length approvedData in
              let approvalPercentage :=
                percentage approvedCount totalGroupMembers in
              if reaches_quorum approvalPercentage then
                ev ← write (flt 3%nat)
                       (λ d, (Data tt,
                              with_events (approve_event eid (events d))
                                          (next_event_id d) d));
                match ev with
                | Failed m => reply 500 (Error m)
                | Data _ =>
                  reply 200 (Reviewed review_processed approvalPercentage
                               (reaches_quorum approvalPercentage))
                end
              else
                reply 200 (Reviewed review_processed approvalPercentage
                             (reaches_quorum approvalPercentage))
            end
          end
        end
      end
  | _, _, _, _ => reply 400 (Error missing_parameters)
  end.

(** ** /api/add-event (lines 22-146) *)

(** The [auraPoints] field of the body: absent, a JSON integer, or a JSON
    string. *)
Inductive points_input :=
| PAbsent
| PNumber (z : Z)
| PText (s : string).

Record add_event_body := {
  name : string;
  auraPoints : points_input;
  description : string;
  groupName : option string
}.

(** [parseInt] without a radix: leading white space, an optional sign, an
    optional [0x] prefix, then the longest run of digits; [None] is [NaN].
    The value is exact (a double rounds it above 2^53). *)
Definition is_white_space (c : ascii) : bool :=
  let n := N_of_ascii c in
  ((9 <=? n) && (n <=? 13) || (n =? 32))%N.

Fixpoint skip_white_space (s : string) : string :=
  match s with
  | String c s' => if is_white_space c then skip_white_space s' else s
  | EmptyString => s
  end.

Definition digit_value (radix : N) (c : ascii) : option N :=
  let n := N_of_ascii c in
  let v := (if (48 <=? n) && (n <=? 57) then Some (n - 48)
            else if (97 <=? n) && (n <=? 122) then Some (n - 87)
            else if (65 <=? n) && (n <=? 90) then Some (n - 55)
            else None)%N in
  match v with
  | Some d => if (d <? radix)%N then Some d else None
  | None => None
  end.

(** The digits read so far are [acc]; [seen] tells whether there was one. *)
Fixpoint parse_digits (radix : N) (s : string) (seen : bool) (acc : N)
  : option N :=
  match s with
  | String c s' =>
    match digit_value radix c with
    | Some d => parse_digits radix s' true (radix * acc + d)%N
    | None => if seen then Some acc else None
    end
  | EmptyString => if seen then Some acc else None
  end.

Definition parse_unsigned (s : string) : option N :=
  match s with
  | String "0" (String "x" s') => parse_digits 16 s' false 0%N
  | String "0" (String "X" s') => parse_digits 16 s' false 0%N
  | _ => parse_digits 10 s false 0%N
  end.

Definition parseInt_string (s : string) : option Z :=
  match skip_white_space s with
  | String "-" s' => (λ n, - Z.of_N n) <$> parse_unsigned s'
  | String "+" s' => Z.of_N <$> parse_unsigned s'
  | s' => Z.of_N <$> parse_unsigned s'
  end.

Definition parseInt (v : points_input) : option Z :=
  match v with
  | PAbsent => None
  | PNumber z => Some z
  | PText s => parseInt_string s
  end.

(** [Array.isArray(g) ? g : [g]]; [None] is a [null] entry. *)
Definition user_groups (m : membership) : list (option string) :=
  match m with
  | MNull => [None]
  | MOne g => [Some g]
  | MMany gs => Some <$> gs
  end.

Definition undefined_length_error : string :=
  "Cannot read properties of undefined (reading 'length')".
Definition null_length_error : string :=
  "Cannot read properties of null (reading 'length')".

(** [userGroups.map(g => ({group, matches, submittedLength, groupLength}))]:
    reading [.length] of [undefined] or [null] throws ([inl]). *)
Fixpoint exact_matches (userGroups : list (option string))
  (submittedGroupName : option string) : string + list exact_match :=
  match userGroups with
  | [] => inr []
  | g :: rest =>
    match submittedGroupName, g with
    | None, _ => inl undefined_length_error
    | Some s, None => inl null_length_error
    | Some s, Some g' =>
      match exact_matches rest submittedGroupName with
      | inl e => inl e
      | inr ms =>
        inr ({| em_group := g'; em_matches := bool_decide (g' = s);
                em_submittedLength := String.length s;
                em_groupLength := String.length g' |} :: ms)
      end
    end
  end.

(** [userGroups.includes(submittedGroupName)] *)
Definition includes (userGroups : list (option string))
  (submittedGroupName : option string) : bool :=
  match submittedGroupName with
  | Some s => bool_decide (Some s ∈ userGroups)
  | None => false
  end.

(** [.from('users').select(..).eq('name', nm).single()] *)
Definition user_by_name (nm : string) (d : db) : result user_row :=
  single (filter (λ u, u_name u = nm) (users d)).

(** [.from('events').insert([row]).select()]: the store generates the id. *)
Definition insert_event (row : Z → event_row) (d : db)
  : result (list event_row) * db :=
  let e := row (next_event_id d) in
  (Data [e], with_events (events d ++ [e]) (next_event_id d + 1) d).

(** [.from('pending').insert(rows)] *)
Definition insert_pending (rows : list (Z → pending_row)) (d : db)
  : result unit * db :=
  let created :=
    zip_with (λ row i, row i) rows
             (seqZ (next_pending_id d) (Z.of_nat (length rows))) in
  (Data tt,
   with_pending (pending d ++ created)
                (next_pending_id d + Z.of_nat (length rows)) d).

Definition new_event (req : add_event_body) (userIdOfNominee : string)
  (submittedGroupName : string) (id : Z) : event_row :=
  {| e_event_id := id; e_name := name req; e_user_id := userIdOfNominee;
     e_aura_points := parseInt (auraPoints req);
     e_description := description req;
     e_group_name := submittedGroupName;
     e_is_approved := false |}.

Definition new_ballot (eventId : Z) (nominee userIdOfNominee : string)
  (entry : string * string) (id : Z) : pending_row :=
  {| p_pending_id := id; p_event_id := eventId;
     p_approved := false; p_reviewed := false;
     p_name_of_nominee := nominee;
     p_user_id_of_nominee := userIdOfNominee;
     p_name_of_reviewer := entry.2;
     p_user_id_of_reviewer := entry.1 |}.

Definition nominee_not_found : string := "Nominee not found in users table".
Definition not_a_member : string :=
  "Nominee is not a member of the specified group".
Definition insert_failed : string := "Event insert failed".
Definition group_not_found : string := "Group or people_map not found".
Definition created_message : string :=
  "Event and pending reviews created successfully.".

(** Past the membership test the submitted group name is a string, since
    [includes] is [false] on [undefined]. *)
Definition add_event (flt : faults) (req : add_event_body) : handler response :=
  let submittedGroupName := groupName req in
  (* Step 1: nominee and membership *)
  usr ← select (flt 0%nat) (user_by_name (name req));
  match usr with
  | Failed _ => reply 400 (Error nominee_not_found)
  | Data nomineeUser =>
    let userGroups := user_groups (u_group_name nomineeUser) in
    match exact_matches userGroups submittedGroupName with
    | inl thrown => reply 500 (Error thrown)
    | inr exactMatches =>
      if negb (includes userGroups submittedGroupName) then
        reply 400
          (ErrorDebug not_a_member
             {| dbg_userGroups := userGroups;
                dbg_submittedGroupName := submittedGroupName;
                dbg_name := u_name nomineeUser;
                dbg_exactMatches := exactMatches |})
      else
        let group := default "" submittedGroupName in
        let userIdOfNominee := u_user_id nomineeUser in
        (* Step 2: the event, never approved at creation *)
        ins ← write (flt 1%nat)
                (insert_event (new_event req userIdOfNominee group));
        match ins with
        | Failed m => reply 500 (Error m)
        | Data [] => reply 500 (Error insert_failed)
        | Data (first :: _) =>
          let eventId := e_event_id first in
          (* Step 3: people_map of the group *)
          grp ← select (flt 2%nat) (group_by_id group);
          match grp with
          | Failed _ => reply 500 (Error group_not_found)
          | Data groupData =>
            match g_people_map groupData with
            | None => reply 500 (Error group_not_found)
            | Some peopleMap =>
              (* Step 4: one pending entry per reviewer; the order in
                 which Object.entries lists the roster only decides which
                 ballot gets which generated id *)
              let pendingInserts :=
                new_ballot eventId (name req) userIdOfNominee
                  <$> map_to_list peopleMap in
              (* Step 5 *)
              pnd ← write (flt 3%nat) (insert_pending pendingInserts);
              match pnd with
              | Failed m => reply 500 (Error m)
              | Data _ => reply 201 (Message created_message)
              end
            end
          end
        end
    end
  end.

(** ** /api/dashboard-results (lines 149-193) *)

(** [userTotals]: the own properties of a JavaScript object, in the order
    they were created. Only own properties are modelled: a nominee whose
    name is that of a member of [Object.prototype] is outside the
    embedding. *)
Definition js_object := list (string * Z).

Fixpoint obj_get (o : js_object) (k : string) : option Z :=
  match o with
  | [] => None
  | (k', v) :: o' => if decide (k' = k) then Some v else obj_get o' k
  end.

(** [o[k] = v]: an existing property keeps its place, a new one goes last. *)
Fixpoint obj_set (o : js_object) (k : string) (v : Z) : js_object :=
  match o with
  | [] => [(k, v)]
  | (k', v') :: o' =>
    if decide (k' = k) then (k', v) :: o' else (k', v') :: obj_set o' k v
  end.

(** [!o[k]]: absent, or zero. *)
Definition falsy (v : option Z) : bool :=
  match v with
  | None => true
  | Some z => (z =? 0)%Z
  end.

(** The body of the [forEach] (lines 174-180); a NULL [aura_points] adds
    zero. *)
Definition accumulate (userTotals : js_object) (event : string * option Z)
  : js_object :=
  let '(nm, aura_points) := event in
  let userTotals :=
    if falsy (obj_get userTotals nm) then obj_set userTotals nm 0
    else userTotals in
  obj_set userTotals nm (default 0 (obj_get userTotals nm) + default 0 aura_points).

(** A property name that is an array index: the canonical decimal form of
    an integer below 2^32 - 1. *)
Definition decimal_digit (c : ascii) : option N :=
  let n := N_of_ascii c in
  if ((48 <=? n) && (n <=? 57))%N then Some (n - 48)%N else None.

Fixpoint decimal_value (s : string) (acc : N) : option N :=
  match s with
  | EmptyString => Some acc
  | String c s' =>
    match decimal_digit c with
    | Some d => decimal_value s' (10 * acc + d)%N
    | None => None
    end
  end.

Definition array_index (k : string) : option N :=
  match k with
  | EmptyString => None
  | String "0" EmptyString => Some 0%N
  | String "0" _ => None
  | _ =>
    match decimal_value k 0%N with
    | Some n => if (n <? 2 ^ 32 - 1)%N then Some n else None
    | None => None
    end
  end.

(** A stable sort: [keeps x y] says the comparator does not put [y]
    before [x]. Every stable sort returns this list. *)
Section StableSort.
Context {A : Type} (keeps : A → A → bool).

Fixpoint insert_sorted (x : A) (l : list A) : list A :=
  match l with
  | [] => [x]
  | y :: l' => if keeps x y then x :: l else y :: insert_sorted x l'
  end.

Definition stable_sort (l : list A) : list A := foldr insert_sorted [] l.
End StableSort.

Definition index_of_key (p : string * Z) : N := default 0%N (array_index p.1).

(** [Object.entries(o)]: array-index names first, in ascending numeric
    order, then the other names in creation order. *)
Definition Object_entries (o : js_object) : js_object :=
  (stable_sort (λ a b, (index_of_key a <=? index_of_key b)%N)
               (filter (λ p, is_Some (array_index p.1)) o)
   ++ filter (λ p, ¬ is_Some (array_index p.1)) o)%list.

(** [.sort((a, b) => b.total_aura_points - a.total_aura_points)] *)
Definition sort_by_total (l : list top_user) : list top_user :=
  stable_sort (λ a b, (tu_total_aura_points b <=? tu_total_aura_points a)%Z) l.

(** [.select('name, aura_points').eq('group_name', gid).eq('is_approved', true)] *)
Definition approved_events (gid : string) (d : db)
  : list (string * option Z) :=
  (λ e, (e_name e, e_aura_points e))
    <$> filter (λ e, e_group_name e = gid ∧ e_is_approved e = true) (events d).

Definition topUsers (data : list (string * option Z)) : list top_user :=
  let userTotals := foldl accumulate [] data in
  take 5
    (sort_by_total
       ((λ p, {| tu_name := p.1; tu_total_aura_points := p.2 |})
          <$> Object_entries userTotals)).

Definition missing_group_id : string := "Missing group_id parameter".

Definition dashboard_results (flt : faults) (group_id : option string)
  : handler response :=
  match group_id with
  | None => reply 400 (Error missing_group_id)
  | Some gid =>
    if bool_decide (gid = "") then reply 400 (Error missing_group_id)
    else
      res ← select (flt 0%nat) (λ d, Data (approved_events gid d));
      match res with
      | Failed m => reply 500 (Error m)
      | Data data => reply 200 (TopUsers (topUsers data))
      end
  end.

(** ** /api/pending-reviews (lines 228-286) *)

(** [.from('pending').select('*').eq('user_id_of_reviewer', uid).eq('reviewed', false)] *)
Definition unreviewed_of (uid : string) (d : db) : list pending_row :=
  filter (λ p, p_user_id_of_reviewer p = uid ∧ p_reviewed p = false) (pending d).

(** [.from('events').select('*').in('event_id', ids).eq('group_name', gid)] *)
Definition events_in (ids : list Z) (gid : string) (d : db) : list event_row :=
  filter (λ e, e_event_id e ∈ ids ∧ e_group_name e = gid) (events d).

(** [pendingData.map(p => find .. ? {...p, events} : null).filter(x => x !== null)] *)
Definition combinedData (pendingData : list pending_row)
  (eventsData : list event_row) : list (pending_row * event_row) :=
  omap (λ p, (λ e, (p, e))
               <$> find (λ e, bool_decide (e_event_id e = p_event_id p))
                        eventsData)
       pendingData.

Definition pending_reviews (flt : faults) (group_id user_id : option string)
  : handler response :=
  match group_id, user_id with
  | Some gid, Some uid =>
    if bool_decide (gid = "") || bool_decide (uid = "") then
      reply 400 (Error missing_parameters)
    else
      pnd ← select (flt 0%nat) (λ d, Data (unreviewed_of uid d));
      match pnd with
      | Failed m => reply 500 (Error m)
      | Data [] => reply 200 (Combined [])
      | Data pendingData =>
        let eventIds := p_event_id <$> pendingData in
        evs ← select (flt 1%nat) (λ d, Data (events_in eventIds gid d));
        match evs with
        | Failed m => reply 500 (Error m)
        | Data eventsData =>
          reply 200 (Combined (combinedData pendingData eventsData))
        end
      end
  | _, _ => reply 400 (Error missing_parameters)
  end.

(** * Notions used by the statements *)

(** The first [n] store calls of a request are served. *)
Definition served (flt : faults) (n : nat) : Prop :=
  ∀ k, (k < n)%nat → flt k = None.

(** The body carries its four fields and passes the test of line 293. *)
Definition valid_review (req : review_body) (pid eid : Z) (appr : bool)
  (gid : string) : Prop :=
  pendingId req = Some pid ∧ eventId req = Some eid ∧
  isApproved req = Some appr ∧ groupId req = Some gid ∧
  pid ≠ 0 ∧ eid ≠ 0 ∧ gid ≠ "".

(** The store after the decision of step 1. *)
Definition decided (pid : Z) (appr : bool) (d : db) : db :=
  with_pending (update_pending pid appr (pending d)) (next_pending_id d) d.

(** The percentage of step 4, on a store [d]. *)
Definition quorum (eid : Z) (roster : gmap string string) (d : db) : float :=
  percentage (length (approved_ballots eid (pending d))) (size roster).

(** The store after the transition of line 347. *)
Definition finalized (eid : Z) (d : db) : db :=
  with_events (approve_event eid (events d)) (next_event_id d) d.

(** A sequence of review requests, each with its own store behaviour. *)
Definition review_events (ops : list (faults * review_body)) (d : db) : db :=
  foldl (λ d op, (run (review_event op.1 op.2) d).2) d ops.

(** The row [e'] is the row [e] of the same event, and was not taken back
    from approved to pending. *)
Definition status_kept (e e' : event_row) : Prop :=
  e_event_id e' = e_event_id e ∧
  (e_is_approved e = true → e' = e) ∧
  (e_is_approved e' = false → e' = e).

(** The store after the two inserts of a nomination (steps 2 and 5). *)
Definition nominated (req : add_event_body) (u : user_row) (gid : string)
  (roster : gmap string string) (d : db) : db :=
  let d1 := (insert_event (new_event req (u_user_id u) gid) d).2 in
  (insert_pending
     (new_ballot (next_event_id d) (name req) (u_user_id u)
        <$> map_to_list roster) d1).2.



(** The specification's reading of [recordDecision] on a ballot id that
    identifies no ballot: the request does not succeed. *)
Definition refuses_unknown_ballot (flt : faults) (req : review_body) (d : db)
  : Prop :=
  ∀ pid, pendingId req = Some pid →
         (∀ p, p ∈ pending d → p_pending_id p ≠ pid) →
         status (run (review_event flt req) d).1 ≠ 200.

(** The specification's reading of a final decision: a ballot that was
    reviewed keeps its [approved] flag through a further request. *)
Definition decision_is_final (flt : faults) (req : review_body) (d : db)
  : Prop :=
  ∀ b b', b ∈ pending d → p_reviewed b = true →
          b' ∈ pending (run (review_event flt req) d).2 →
          p_pending_id b' = p_pending_id b →
          p_approved b' = p_approved b.

(** The diagnostic payload of the answer of line 68: the nominee's
    groups, the submitted group, the nominee's name, and one comparison
    per group. *)
Definition mismatch_payload (u : user_row) (gid : string) (gs : list string)
  : debug_payload :=
  {| dbg_userGroups := Some <$> gs;
     dbg_submittedGroupName := Some gid;
     dbg_name := u_name u;
     dbg_exactMatches :=
       (λ g, {| em_group := g; em_matches := false;
                em_submittedLength := String.length gid;
                em_groupLength := String.length g |}) <$> gs |}.


(** The join of the specification: the event of group [gid] a ballot
    refers to (the first such row of the events table). *)
Definition event_of (gid : string) (d : db) (p : pending_row)
  : option event_row :=
  find (λ e, bool_decide (e_event_id e = p_event_id p ∧ e_group_name e = gid))
       (events d).

(** The event a ballot refers to exists and belongs to group [gid]. *)
Definition has_event (gid : string) (d : db) (p : pending_row) : Prop :=
  Exists (λ e, e_event_id e = p_event_id p ∧ e_group_name e = gid) (events d).








(** ** Stores used by the examples *)

Definition roster_of_four : gmap string string :=
  list_to_map [("r1", "Ann"); ("r2", "Bob"); ("r3", "Cy"); ("r4", "Di")].

Definition roster_of_two : gmap string string :=
  list_to_map [("r1", "Ann"); ("r2", "Bob")].

Definition group_g : group_row :=
  {| g_group_id := "g"; g_people_map := Some roster_of_four |}.

Definition group_tiny : group_row :=
  {| g_group_id := "tiny"; g_people_map := Some roster_of_two |}.

Definition nomination (id : Z) (nominee : string) (points : Z) (ok : bool)
  : event_row :=
  {| e_event_id := id; e_name := nominee; e_user_id := ("u-" ++ nominee)%string;
     e_aura_points := Some points; e_description := "helped";
     e_group_name := "g"; e_is_approved := ok |}.

Definition ballot (id event : Z) (reviewer : string) (rev appr : bool)
  : pending_row :=
  {| p_pending_id := id; p_event_id := event;
     p_approved := appr; p_reviewed := rev;
     p_name_of_nominee := "Zed"; p_user_id_of_nominee := "u-Zed";
     p_name_of_reviewer := reviewer; p_user_id_of_reviewer := reviewer |}.

Definition zed : user_row :=
  {| u_user_id := "u-Zed"; u_name := "Zed"; u_group_name := MMany ["g"] |}.

(** One pending nomination in a group of four, nobody has voted. *)
Definition store_fresh : db :=
  {| users := [zed];
     events := [nomination 1 "Zed" 10 false];
     groups := [group_g; group_tiny];
     pending := [ballot 1 1 "r1" false false; ballot 2 1 "r2" false false;
                 ballot 3 1 "r3" false false; ballot 4 1 "r4" false false];
     next_event_id := 2; next_pending_id := 5 |}.

(** The same nomination, approved by two of the four. *)
Definition store_approved : db :=
  {| users := [zed];
     events := [nomination 1 "Zed" 10 true];
     groups := [group_g; group_tiny];
     pending := [ballot 1 1 "r1" true true; ballot 2 1 "r2" true true;
                 ballot 3 1 "r3" false false; ballot 4 1 "r4" false false];
     next_event_id := 2; next_pending_id := 5 |}.

(** Two pending nominations; the second has one approval out of four. *)
Definition store_two_events : db :=
  {| users := [zed];
     events := [nomination 1 "Zed" 10 false; nomination 2 "Zed" 500 false];
     groups := [group_g; group_tiny];
     pending := [ballot 1 1 "r1" false false; ballot 2 1 "r2" false false;
                 ballot 3 1 "r3" false false; ballot 4 1 "r4" false false;
                 ballot 5 2 "r1" true true; ballot 6 2 "r2" false false;
                 ballot 7 2 "r3" false false; ballot 8 2 "r4" false false];
     next_event_id := 3; next_pending_id := 9 |}.

(** A member who belongs to no group yet. *)
Definition nia : user_row :=
  {| u_user_id := "u-Nia"; u_name := "Nia"; u_group_name := MNull |}.

Definition store_newcomer : db :=
  {| users := [zed; nia];
     events := [];
     groups := [group_g; group_tiny];
     pending := [];
     next_event_id := 1; next_pending_id := 1 |}.


(** Scenario D of the specification. *)
Definition store_alice : db :=
  {| users := [];
     events := [nomination 1 "Alice" 10 true; nomination 2 "Alice" 100 false;
                nomination 3 "Alice" 15 true];
     groups := [group_g];
     pending := [];
     next_event_id := 4; next_pending_id := 1 |}.

(** An unreviewed ballot whose event is gone. *)
Definition store_orphan : db :=
  {| users := [zed];
     events := [nomination 1 "Zed" 10 false];
     groups := [group_g; group_tiny];
     pending := [ballot 1 1 "r1" false false; ballot 2 7 "r1" false false;
                 ballot 3 1 "r2" false false];
     next_event_id := 8; next_pending_id := 4 |}.

Definition nominate (nominee : string) (points : points_input) (gid : string)
  : add_event_body :=
  {| name := nominee; auraPoints := points; description := "helped";
     groupName := Some gid |}.

Definition review (pid eid : Z) (appr : bool) (gid : string) : review_body :=
  {| pendingId := Some pid; eventId := Some eid;
     isApproved := Some appr; groupId := Some gid |}.

(** * The rest of the application *)

From Stdlib Require FloatAxioms FloatOps SpecFloat.

(** ** /api/get-default-group (lines 195-224)

    The route makes one read and no write, and its answers have a shape
    of their own ([{}] and [{group}]), so it is a function of the store. *)







(** ** The application: requests to the four routes that work on the
    store ([app.post], [app.get]) *)

Inductive request :=
| AddEvent (req : add_event_body)
| DashboardResults (group_id : option string)
| PendingReviews (group_id user_id : option string)
| ReviewEvent (req : review_body).

Definition serve (flt : faults) (r : request) : handler response :=
  match r with
  | AddEvent req => add_event flt req
  | DashboardResults group_id => dashboard_results flt group_id
  | PendingReviews group_id user_id => pending_reviews flt group_id user_id
  | ReviewEvent req => review_event flt req
  end.

(** The store after a sequence of requests, each with its own behaviour of
    the store. *)
Definition serve_all (rs : list (faults * request)) (d : db) : db :=
  foldl (λ d r, (run (serve r.1 r.2) d).2) d rs.

(** ** Notions used by the further statements *)

(** The store after the event insert of a nomination (step 2). *)
Definition event_inserted (req : add_event_body) (u : user_row) (gid : string)
  (d : db) : db :=
  (insert_event (new_event req (u_user_id u) gid) d).2.

(** The table [l'] holds the rows of [l] in their places, each related to
    what it was by [R], followed by newer rows. *)
Definition extended {A : Type} (R : A → A → Prop) (l l' : list A) : Prop :=
  ∃ kept newer, l' = kept ++ newer ∧ Forall2 R l kept.

(** The ballot [p'] is the ballot [p]: same ids, same nominee and
    reviewer; a ballot that was reviewed is still reviewed. *)
Definition ballot_kept (p p' : pending_row) : Prop :=
  p_pending_id p' = p_pending_id p
  ∧ p_event_id p' = p_event_id p
  ∧ p_name_of_nominee p' = p_name_of_nominee p
  ∧ p_user_id_of_nominee p' = p_user_id_of_nominee p
  ∧ p_name_of_reviewer p' = p_name_of_reviewer p
  ∧ p_user_id_of_reviewer p' = p_user_id_of_reviewer p
  ∧ (p_reviewed p = true → p_reviewed p' = true).

(** What the workflow keeps of a store over time: users and groups as they
    are, every event and ballot in its place, the sequences not lower. *)
Definition history (d d' : db) : Prop :=
  users d' = users d
  ∧ groups d' = groups d
  ∧ extended status_kept (events d) (events d')
  ∧ extended ballot_kept (pending d) (pending d')
  ∧ (next_event_id d ≤ next_event_id d')%Z
  ∧ (next_pending_id d ≤ next_pending_id d')%Z.

(** No ballot carries an approval without being reviewed. *)
Definition decisions_consistent (d : db) : Prop :=
  Forall (λ p, p_approved p = true → p_reviewed p = true) (pending d).

(** The ids in the tables are below the sequences and pairwise distinct,
    and every ballot refers to an id the event sequence has handed out. *)
Definition well_numbered (d : db) : Prop :=
  Forall (λ e, e_event_id e < next_event_id d) (events d)
  ∧ Forall (λ p, p_pending_id p < next_pending_id d
                 ∧ p_event_id p < next_event_id d) (pending d)
  ∧ NoDup (e_event_id <$> events d)
  ∧ NoDup (p_pending_id <$> pending d).

(** The body of a review has a field missing or falsy (line 293). *)
Definition review_incomplete (req : review_body) : Prop :=
  pendingId req = None ∨ pendingId req = Some 0
  ∨ eventId req = None ∨ eventId req = Some 0
  ∨ isApproved req = None
  ∨ groupId req = None ∨ groupId req = Some "".

(** Further stores for the examples. *)

(** Zed twice in the users table. *)
Definition store_namesakes : db :=
  {| users := [zed; {| u_user_id := "u-Zed2"; u_name := "Zed";
                       u_group_name := MMany ["g"] |}];
     events := []; groups := [group_g]; pending := [];
     next_event_id := 1; next_pending_id := 1 |}.

(** A member of a group that has no row in the groups table, and a member
    whose group field is a single string. *)
Definition store_lost_group : db :=
  {| users := [ {| u_user_id := "u-Ola"; u_name := "Ola";
                   u_group_name := MMany ["gone"; "g"] |};
                {| u_user_id := "u-Pia"; u_name := "Pia";
                   u_group_name := MOne "team" |} ];
     events := []; groups := [group_g]; pending := [];
     next_event_id := 1; next_pending_id := 1 |}.


(** * Properties *)

Lemma served_reliable n : served reliable n.
Proof. intros k _. reflexivity. Qed.

(** ** Review ledger and quorum evaluation *)






Lemma with_pending_id d : with_pending (pending d) (next_pending_id d) d = d.
Proof. destruct d. reflexivity. Qed.

Lemma with_events_id d : with_events (events d) (next_event_id d) d = d.
Proof. destruct d. reflexivity. Qed.

Ltac unfold_route :=
  unfold run, mbind, handler_bind, write, select, reply; simpl.

(** Case analysis on the rows of a table given in full. *)
Ltac each_row H :=
  simpl in H;
  repeat (apply elem_of_cons in H as [->|H]);
  [..|apply elem_of_nil in H; destruct H].

Ltac use_valid H :=
  destruct H as (Hpid & Heid & Happr & Hgid & Hp0 & He0 & Hg0).

Lemma validation_passes pid eid gid :
  pid ≠ 0 → eid ≠ 0 → gid ≠ "" →
  (pid =? 0)%Z || (eid =? 0)%Z || bool_decide (gid = "") = false.
Proof.
  intros Hp He Hg.
  rewrite (proj2 (Z.eqb_neq _ _) Hp), (proj2 (Z.eqb_neq _ _) He).
  rewrite bool_decide_eq_false_2 by exact Hg. reflexivity.
Qed.

(** What the route does when the store serves its calls and the group row
    carries a roster. *)
Lemma review_event_served flt req d pid eid appr gid g roster :
  valid_review req pid eid appr gid →
  served flt 4 →
  group_by_id gid d = Data g →
  g_people_map g = Some roster →
  let d1 := decided pid appr d in
  let pct := quorum eid roster d1 in
  run (review_event flt req) d =
    ({| status := 200;
        json := Reviewed review_processed pct (reaches_quorum pct) |},
     if reaches_quorum pct then finalized eid d1 else d1).
Proof.
  intros Hv Hs Hg Hpm d1 pct. use_valid Hv.
  unfold review_event. rewrite Hpid, Heid, Happr, Hgid.
  rewrite validation_passes by assumption.
  unfold_route.
  rewrite (Hs 0%nat), (Hs 1%nat), (Hs 2%nat) by lia.
  change (group_by_id gid _) with (group_by_id gid d). rewrite Hg, Hpm.
  fold (decided pid appr d). fold d1.
  change (percentage _ _) with pct.
  destruct (reaches_quorum pct) eqn:Hq.
  - rewrite (Hs 3%nat) by lia. reflexivity.
  - reflexivity.
Qed.

(** Whatever the store does, the only change a review makes to the events
    table is the transition of line 347 for the submitted event. *)
Lemma review_event_events flt req d :
  events (run (review_event flt req) d).2 = events d ∨
  ∃ eid, eventId req = Some eid ∧
         events (run (review_event flt req) d).2 = approve_event eid (events d).
Proof.
  unfold review_event.
  destruct (pendingId req) as [pid|]; [|left; reflexivity].
  destruct (eventId req) as [eid|]; [|left; reflexivity].
  destruct (isApproved req) as [appr|]; [|left; reflexivity].
  destruct (groupId req) as [gid|]; [|left; reflexivity].
  destruct (_ || _); [left; reflexivity|].
  unfold_route.
  destruct (flt 0%nat); [left; reflexivity|].
  destruct (flt 1%nat); [left; reflexivity|].
  destruct (group_by_id gid _) as [g|]; [|left; reflexivity].
  destruct (g_people_map g) as [roster|]; [|left; reflexivity].
  destruct (flt 2%nat); [left; reflexivity|].
  destruct (reaches_quorum _); [|left; reflexivity].
  destruct (flt 3%nat); [left; reflexivity|].
  right. exists eid. split; reflexivity.
Qed.

(** Once the decision write is served, the pending table is the updated
    one, whatever happens later in the request. *)
Lemma review_event_pending flt req d pid eid appr gid :
  valid_review req pid eid appr gid →
  flt 0%nat = None →
  pending (run (review_event flt req) d).2 = update_pending pid appr (pending d).
Proof.
  intros Hv H0. use_valid Hv.
  unfold review_event. rewrite Hpid, Heid, Happr, Hgid.
  rewrite validation_passes by assumption.
  unfold_route. rewrite H0.
  destruct (flt 1%nat); [reflexivity|].
  destruct (group_by_id gid _) as [g|]; [|reflexivity].
  destruct (g_people_map g) as [roster|]; [|reflexivity].
  destruct (flt 2%nat); [reflexivity|].
  destruct (reaches_quorum _); [|reflexivity].
  destruct (flt 3%nat); reflexivity.
Qed.



Lemma status_kept_refl e : status_kept e e.
Proof. repeat split; reflexivity. Qed.

Lemma status_kept_approve e : status_kept e (approve_row e).
Proof.
  repeat split.
  - intros Ha. destruct e; simpl in *; subst; reflexivity.
  - simpl. discriminate.
Qed.

Lemma status_kept_trans e1 e2 e3 :
  status_kept e1 e2 → status_kept e2 e3 → status_kept e1 e3.
Proof.
  intros (Hid & Ha & Hp) (Hid' & Ha' & Hp'). repeat split.
  - congruence.
  - intros H1. rewrite <- (Ha H1). apply Ha'. rewrite (Ha H1). exact H1.
  - intros H3. pose proof (Hp' H3) as ->. apply Hp. exact H3.
Qed.

Lemma approve_event_kept eid evs : Forall2 status_kept evs (approve_event eid evs).
Proof.
  induction evs as [|e evs IH]; simpl; constructor; [|exact IH].
  destruct (decide (e_event_id e = eid)).
  - apply status_kept_approve.
  - apply status_kept_refl.
Qed.

Lemma Forall2_status_kept_refl evs : Forall2 status_kept evs evs.
Proof. induction evs; constructor; [apply status_kept_refl|assumption]. Qed.

Lemma Forall2_status_kept_trans l1 l2 l3 :
  Forall2 status_kept l1 l2 → Forall2 status_kept l2 l3 →
  Forall2 status_kept l1 l3.
Proof.
  intros H12. revert l3.
  induction H12 as [|a b l1 l2 Hab _ IH]; intros l3 H23.
  - inversion H23. constructor.
  - inversion H23 as [|? c ? l3' Hbc H23']; subst.
    constructor; [eapply status_kept_trans; eassumption|apply IH; assumption].
Qed.

Lemma review_event_kept flt req d :
  Forall2 status_kept (events d) (events (run (review_event flt req) d).2).
Proof.
  destruct (review_event_events flt req d) as [->|(eid & _ & ->)].
  - apply Forall2_status_kept_refl.
  - apply approve_event_kept.
Qed.

Lemma review_events_kept ops d :
  Forall2 status_kept (events d) (events (review_events ops d)).
Proof.
  revert d. induction ops as [|op ops IH]; intros d; simpl.
  - apply Forall2_status_kept_refl.
  - eapply Forall2_status_kept_trans; [apply review_event_kept|apply IH].
Qed.

(** Approving an event whose rows are all approved changes nothing. *)
Lemma approve_event_approved eid evs :
  (∀ e, e ∈ evs → e_event_id e = eid → e_is_approved e = true) →
  approve_event eid evs = evs.
Proof.
  induction evs as [|e evs IH]; intros Hall; simpl; [reflexivity|].
  rewrite IH by (intros e' He'; apply Hall; right; exact He').
  destruct (decide (e_event_id e = eid)) as [He|He]; [|reflexivity].
  pose proof (Hall e ltac:(left) He) as Ha.
  destruct e; simpl in *; subst; reflexivity.
Qed.

(** C2. The approval status of an event is monotonic. Over every sequence
    of review requests, with any behaviour of the store, each event row is
    kept in place with its id, an approved row is left as it is, and a row
    that is pending at the end was never changed: no request sets a status
    back to pending. The only change a request makes to the events table
    is to approve the rows of the submitted event. And evaluating the quorum again for an event that is
    already approved, with a request that carries no new decision, answers
    200 and leaves the store, hence the status, as it was. *)
Theorem event_status_monotonic :
  (∀ ops d, Forall2 status_kept (events d) (events (review_events ops d)))
  ∧
  (∀ flt req d,
      events (run (review_event flt req) d).2 = events d
      ∨ ∃ eid, eventId req = Some eid
               ∧ events (run (review_event flt req) d).2
                 = approve_event eid (events d))
  ∧
  (∀ flt req d pid eid appr gid g roster,
      valid_review req pid eid appr gid →
      served flt 4 →
      group_by_id gid d = Data g →
      g_people_map g = Some roster →
      (∀ e, e ∈ events d → e_event_id e = eid → e_is_approved e = true) →
      update_pending pid appr (pending d) = pending d →
      ∃ pct wasApproved,
        run (review_event flt req) d =
          ({| status := 200;
              json := Reviewed review_processed pct wasApproved |}, d)).
Proof.
  split; [apply review_events_kept|].
  split; [apply review_event_events|].
  intros flt req d pid eid appr gid g roster Hv Hs Hg Hpm Happroved Hsame.
  pose proof (review_event_served flt req d pid eid appr gid g roster
                Hv Hs Hg Hpm) as Hrun.
  simpl in Hrun.
  assert (Hd : decided pid appr d = d).
  { unfold decided. rewrite Hsame. apply with_pending_id. }
  rewrite Hd in Hrun.
  assert (Hf : finalized eid d = d).
  { unfold finalized. rewrite approve_event_approved by exact Happroved.
    apply with_events_id. }
  rewrite Hf in Hrun.
  eexists _, _. rewrite Hrun. f_equal.
  destruct (reaches_quorum _); reflexivity.
Qed.

Lemma valid_review_intro pid eid appr gid :
  pid ≠ 0 → eid ≠ 0 → gid ≠ "" →
  valid_review (review pid eid appr gid) pid eid appr gid.
Proof. intros; repeat split; assumption. Qed.

(** Scenario A of the specification: one approval out of four is 25%. *)
Example scenario_A :
  (run (review_event reliable (review 1 1 true "g")) store_fresh).1
  = {| status := 200; json := Reviewed review_processed 25 false |}.
Proof. vm_compute. reflexivity. Qed.

(** Scenario B: the second approval gives 50% and approves the event. *)
Example scenario_B :
  let d1 := (run (review_event reliable (review 1 1 true "g")) store_fresh).2 in
  run (review_event reliable (review 2 1 true "g")) d1
  = ({| status := 200; json := Reviewed review_processed 50 true |},
     store_approved).
Proof. vm_compute. reflexivity. Qed.



Lemma event_status_monotonic_witness :
  Forall2 status_kept (events store_fresh)
    (events (review_events [(reliable, review 1 1 true "g");
                            (reliable, review 2 1 true "g");
                            (reliable, review 3 1 false "g")] store_fresh))
  ∧ ∃ pct wasApproved,
      run (review_event reliable (review 2 1 true "g")) store_approved =
        ({| status := 200;
            json := Reviewed review_processed pct wasApproved |},
         store_approved).
Proof.
  split.
  - apply (proj1 event_status_monotonic).
  - apply (proj2 (proj2 event_status_monotonic) reliable (review 2 1 true "g")
             store_approved 2 1 true "g" group_g roster_of_four).
    + apply valid_review_intro; [lia | lia | discriminate].
    + intros k _; reflexivity.
    + vm_compute; reflexivity.
    + reflexivity.
    + intros e He Hid. vm_compute in He.
      apply list_elem_of_singleton in He. subst e. reflexivity.
    + vm_compute; reflexivity.
Defined.

Lemma update_pending_unknown pid appr ps :
  (∀ p, p ∈ ps → p_pending_id p ≠ pid) → update_pending pid appr ps = ps.
Proof.
  induction ps as [|p ps IH]; intros Hno; simpl; [reflexivity|].
  rewrite decide_False by (apply Hno; left).
  rewrite IH by (intros q Hq; apply Hno; right; exact Hq). reflexivity.
Qed.

Lemma update_pending_elem pid appr ps b :
  b ∈ ps → (if decide (p_pending_id b = pid) then decide_row appr b else b)
           ∈ update_pending pid appr ps.
Proof.
  intros Hb. unfold update_pending.
  apply list_elem_of_In, in_map_iff. exists b.
  split; [reflexivity|apply list_elem_of_In; exact Hb].
Qed.

Lemma update_pending_inv pid appr ps b' :
  b' ∈ update_pending pid appr ps →
  ∃ b, b ∈ ps ∧
       b' = (if decide (p_pending_id b = pid) then decide_row appr b else b).
Proof.
  unfold update_pending. intros Hb'.
  apply list_elem_of_In, in_map_iff in Hb' as (b & Heq & Hb).
  exists b. split; [apply list_elem_of_In; exact Hb|symmetry; exact Heq].
Qed.

(** C5 (as the code has it). A review request whose ballot id identifies
    no ballot is not refused: on a store that serves the calls and holds
    the group with its roster, the answer is 200, no ballot is changed,
    and the percentage is the one of the ballots as they were. *)
Theorem review_event_unknown_ballot flt req d pid eid appr gid g roster :
  valid_review req pid eid appr gid →
  served flt 4 →
  group_by_id gid d = Data g →
  g_people_map g = Some roster →
  (∀ p, p ∈ pending d → p_pending_id p ≠ pid) →
  ∃ pct d',
    run (review_event flt req) d =
      ({| status := 200;
          json := Reviewed review_processed pct (reaches_quorum pct) |}, d')
    ∧ pending d' = pending d
    ∧ pct = percentage (length (approved_ballots eid (pending d))) (size roster).
Proof.
  intros Hv Hs Hg Hpm Hno.
  pose proof (review_event_served flt req d pid eid appr gid g roster
                Hv Hs Hg Hpm) as Hrun.
  simpl in Hrun. eexists _, _. split; [exact Hrun|].
  split.
  - destruct (reaches_quorum _); simpl;
      apply update_pending_unknown; exact Hno.
  - unfold quorum, decided. simpl.
    rewrite update_pending_unknown by exact Hno. reflexivity.
Qed.

Lemma review_event_unknown_ballot_witness :
  ∃ pct d',
    run (review_event reliable (review 99 1 true "g")) store_fresh =
      ({| status := 200;
          json := Reviewed review_processed pct (reaches_quorum pct) |}, d')
    ∧ pending d' = pending store_fresh
    ∧ pct = percentage
              (length (approved_ballots 1 (pending store_fresh)))
              (size roster_of_four).
Proof.
  apply (review_event_unknown_ballot reliable (review 99 1 true "g")
           store_fresh 99 1 true "g" group_g roster_of_four).
  - apply valid_review_intro; [lia | lia | discriminate].
  - intros k _; reflexivity.
  - vm_compute; reflexivity.
  - reflexivity.
  - intros p Hp. each_row Hp; simpl; lia.
Defined.

(** C5, counterexample: on the fresh store no ballot has id 99, and the
    request for ballot 99 is answered 200. *)
Lemma unknown_ballot_accepted :
  ¬ refuses_unknown_ballot reliable (review 99 1 true "g") store_fresh.
Proof.
  intros Hclaim. apply (Hclaim 99).
  - reflexivity.
  - intros p Hp. each_row Hp; simpl; lia.
  - vm_compute. reflexivity.
Qed.

(** C6 (as the code has it). A decision is not final: once the decision
    write is served, every ballot with the submitted id holds the submitted
    verdict and is marked reviewed, whatever it held before, and the other
    ballots are as they were. The last decision wins. *)
Theorem review_event_overwrites flt req d pid eid appr gid :
  valid_review req pid eid appr gid →
  flt 0%nat = None →
  let after := pending (run (review_event flt req) d).2 in
  after = update_pending pid appr (pending d)
  ∧ (∀ b, b ∈ pending d → p_pending_id b = pid → decide_row appr b ∈ after)
  ∧ (∀ b', b' ∈ after → p_pending_id b' = pid →
           p_approved b' = appr ∧ p_reviewed b' = true)
  ∧ (∀ b, b ∈ pending d → p_pending_id b ≠ pid → b ∈ after).
Proof.
  intros Hv H0 after.
  assert (Hafter : after = update_pending pid appr (pending d))
    by (eapply review_event_pending; eassumption).
  split; [exact Hafter|]. rewrite Hafter. repeat split.
  - intros b Hb Hid.
    pose proof (update_pending_elem pid appr _ b Hb) as H.
    rewrite decide_True in H by exact Hid. exact H.
  - apply update_pending_inv in H as (b & Hb & ->).
    destruct (decide (p_pending_id b = pid)) as [Hid|Hid]; [reflexivity|].
    contradiction.
  - apply update_pending_inv in H as (b & Hb & ->).
    destruct (decide (p_pending_id b = pid)) as [Hid|Hid]; [reflexivity|].
    contradiction.
  - intros b Hb Hid.
    pose proof (update_pending_elem pid appr _ b Hb) as H.
    rewrite decide_False in H by exact Hid. exact H.
Qed.

Lemma review_event_overwrites_witness :
  let after :=
    pending (run (review_event reliable (review 1 1 false "g")) store_approved).2 in
  after = update_pending 1 false (pending store_approved)
  ∧ (∀ b, b ∈ pending store_approved → p_pending_id b = 1 →
          decide_row false b ∈ after)
  ∧ (∀ b', b' ∈ after → p_pending_id b' = 1 →
           p_approved b' = false ∧ p_reviewed b' = true)
  ∧ (∀ b, b ∈ pending store_approved → p_pending_id b ≠ 1 → b ∈ after).
Proof.
  apply (review_event_overwrites reliable (review 1 1 false "g")
           store_approved 1 1 false "g").
  - apply valid_review_intro; [lia | lia | discriminate].
  - reflexivity.
Defined.

(** C6, counterexample: ballot 1 was reviewed and approved; a second
    request on it with the opposite verdict turns its flag to false. *)
Lemma second_decision_overwrites :
  ¬ decision_is_final reliable (review 1 1 false "g") store_approved.
Proof.
  intros Hclaim.
  specialize (Hclaim (ballot 1 1 "r1" true true) (ballot 1 1 "r1" true false)).
  assert (Hne : false = true); [|discriminate Hne].
  apply Hclaim.
  - left.
  - reflexivity.
  - vm_compute. left.
  - reflexivity.
Qed.

(** C10. The route never compares the ballot with the submitted event or
    group. For every request that passes the parameter test, once the
    decision write is served, each ballot with the submitted id is marked
    reviewed with the submitted verdict, whatever event it belongs to; the
    evaluation then counts the approved ballots of the submitted event
    against the roster of the submitted group. So a decision written to a
    ballot of one event can approve another: on [store_two_events], the
    rejection of ballot 1 (of event 1), sent with event 2 and the group of
    two, approves event 2 with its single approval. *)
Theorem review_event_cross_event :
  (∀ flt req d pid eid appr gid b,
      valid_review req pid eid appr gid →
      flt 0%nat = None →
      b ∈ pending d → p_pending_id b = pid →
      decide_row appr b ∈ pending (run (review_event flt req) d).2)
  ∧
  (∀ flt req d pid eid appr gid g roster,
      valid_review req pid eid appr gid →
      served flt 4 →
      group_by_id gid d = Data g →
      g_people_map g = Some roster →
      let pct :=
        percentage
          (length (approved_ballots eid (update_pending pid appr (pending d))))
          (size roster) in
      (run (review_event flt req) d).1 =
        {| status := 200;
           json := Reviewed review_processed pct (reaches_quorum pct) |}
      ∧ (reaches_quorum pct = true →
         events (run (review_event flt req) d).2 = approve_event eid (events d)))
  ∧
  (let req := review 1 2 false "tiny" in
   let after := (run (review_event reliable req) store_two_events).2 in
   ballot 1 1 "r1" false false ∈ pending store_two_events
   ∧ ballot 1 1 "r1" true false ∈ pending after
   ∧ approved_ballots 2 (pending after)
     = approved_ballots 2 (pending store_two_events)
   ∧ nomination 2 "Zed" 500 false ∈ events store_two_events
   ∧ events after = [nomination 1 "Zed" 10 false; nomination 2 "Zed" 500 true]).
Proof.
  split; [|split].
  - intros flt req d pid eid appr gid b Hv H0 Hb Hid.
    rewrite (review_event_pending flt req d pid eid appr gid Hv H0).
    pose proof (update_pending_elem pid appr _ b Hb) as H.
    rewrite decide_True in H by exact Hid. exact H.
  - intros flt req d pid eid appr gid g roster Hv Hs Hg Hpm pct.
    pose proof (review_event_served flt req d pid eid appr gid g roster
                  Hv Hs Hg Hpm) as Hrun.
    simpl in Hrun. rewrite Hrun. simpl. split; [reflexivity|].
    intros Hq. change (quorum eid roster (decided pid appr d)) with pct.
    rewrite Hq. reflexivity.
  - vm_compute. repeat split.
    + left.
    + left.
    + right. left.
Qed.

Lemma review_event_cross_event_witness :
  decide_row false (ballot 1 1 "r1" false false)
    ∈ pending (run (review_event reliable (review 1 2 false "tiny"))
                   store_two_events).2
  ∧ (let pct :=
       percentage
         (length (approved_ballots 2
                    (update_pending 1 false (pending store_two_events))))
         (size roster_of_two) in
     (run (review_event reliable (review 1 2 false "tiny")) store_two_events).1 =
       {| status := 200;
          json := Reviewed review_processed pct (reaches_quorum pct) |}
     ∧ (reaches_quorum pct = true →
        events (run (review_event reliable (review 1 2 false "tiny"))
                    store_two_events).2
        = approve_event 2 (events store_two_events))).
Proof.
  split.
  - apply (proj1 review_event_cross_event reliable (review 1 2 false "tiny")
             store_two_events 1 2 false "tiny").
    + apply valid_review_intro; [lia | lia | discriminate].
    + reflexivity.
    + left.
    + reflexivity.
  - apply (proj1 (proj2 review_event_cross_event) reliable
             (review 1 2 false "tiny") store_two_events 1 2 false "tiny"
             group_tiny roster_of_two).
    + apply valid_review_intro; [lia | lia | discriminate].
    + intros k _; reflexivity.
    + vm_compute; reflexivity.
    + reflexivity.
Defined.

(** ** Nomination intake *)

Lemma exact_matches_strings gs s :
  ∃ ms, exact_matches (Some <$> gs) (Some s) = inr ms.
Proof.
  induction gs as [|g gs [ms IH]].
  - exists []. reflexivity.
  - change (Some <$> g :: gs) with (Some g :: (Some <$> gs)).
    cbn [exact_matches]. rewrite IH. eexists. reflexivity.
Qed.

Lemma user_groups_strings m :
  m ≠ MNull → ∃ gs, user_groups m = Some <$> gs.
Proof.
  destruct m as [|g|gs]; intros Hm.
  - contradiction.
  - exists [g]. reflexivity.
  - exists gs. reflexivity.
Qed.

Lemma includes_Some userGroups submitted :
  includes userGroups submitted = true →
  ∃ gid, submitted = Some gid ∧ Some gid ∈ userGroups.
Proof.
  destruct submitted as [gid|]; simpl; [|discriminate].
  intros H. apply bool_decide_eq_true in H. exists gid. split; [reflexivity|exact H].
Qed.

(** The ballots the store creates are the submitted rows, in order. *)
Lemma created_project {A B C} (mk : A → Z → B) (proj : B → C) (f : A → C)
  (l : list A) (ids : list Z) :
  (∀ a i, proj (mk a i) = f a) →
  (length l ≤ length ids)%nat →
  proj <$> zip_with (λ row i, row i) (mk <$> l) ids = f <$> l.
Proof.
  intros Hproj. revert ids.
  induction l as [|a l IH]; intros ids Hlen; [reflexivity|].
  destruct ids as [|i ids]; simpl in Hlen; [lia|].
  rewrite !fmap_cons. cbn [zip_with]. rewrite fmap_cons, Hproj.
  f_equal. apply IH. lia.
Qed.

Lemma created_Forall {A B} (mk : A → Z → B) (P : B → Prop)
  (l : list A) (ids : list Z) :
  (∀ a i, P (mk a i)) →
  Forall P (zip_with (λ row i, row i) (mk <$> l) ids).
Proof.
  intros HP. revert ids.
  induction l as [|a l IH]; intros ids; [constructor|].
  destruct ids as [|i ids]; rewrite fmap_cons; cbn [zip_with]; [constructor|].
  constructor; [apply HP|apply IH].
Qed.

Lemma fmap_pair_eta {A B} (l : list (A * B)) : (λ e, (e.1, e.2)) <$> l = l.
Proof.
  induction l as [|[a b] l IH]; [reflexivity|].
  rewrite fmap_cons, IH. reflexivity.
Qed.

(** The ballots created for a roster, as the store numbers them. *)
Lemma created_ballots eid nominee uid (roster : gmap string string) (nxt : Z) :
  let created :=
    zip_with (λ row i, row i)
      (new_ballot eid nominee uid <$> map_to_list roster)
      (seqZ nxt (Z.of_nat (length (new_ballot eid nominee uid
                                     <$> map_to_list roster)))) in
  (λ b, (p_user_id_of_reviewer b, p_name_of_reviewer b)) <$> created
    = map_to_list roster
  ∧ Forall (λ b, p_event_id b = eid ∧ p_reviewed b = false
                 ∧ p_approved b = false ∧ p_name_of_nominee b = nominee
                 ∧ p_user_id_of_nominee b = uid) created.
Proof.
  intros created. split.
  - unfold created.
    rewrite (created_project _ _ (λ e, (e.1, e.2))).
    + apply fmap_pair_eta.
    + intros a i. reflexivity.
    + rewrite length_seqZ, length_fmap. lia.
  - apply created_Forall. intros a i. repeat split.
Qed.

(** A nomination answered 201 went through every step. *)
Lemma add_event_created flt req d resp d' :
  run (add_event flt req) d = (resp, d') →
  status resp = 201 →
  ∃ u gid g roster,
    user_by_name (name req) d = Data u
    ∧ groupName req = Some gid
    ∧ Some gid ∈ user_groups (u_group_name u)
    ∧ group_by_id gid d = Data g
    ∧ g_people_map g = Some roster
    ∧ d' = nominated req u gid roster d.
Proof.
  unfold add_event. unfold_route.
  destruct (flt 0%nat); [intros [= <- <-]; discriminate|].
  destruct (user_by_name (name req) d) as [u|] eqn:Hu;
    [|intros [= <- <-]; discriminate].
  destruct (exact_matches _ _) as [thrown|ms];
    [intros [= <- <-]; discriminate|].
  destruct (includes _ _) eqn:Hin; simpl;
    [|intros [= <- <-]; discriminate].
  apply includes_Some in Hin as (gid & Hgid & Hmem). rewrite Hgid. simpl.
  destruct (flt 1%nat); [intros [= <- <-]; discriminate|].
  destruct (flt 2%nat); [intros [= <- <-]; discriminate|].
  change (group_by_id gid _) with (group_by_id gid d).
  destruct (group_by_id gid d) as [g|] eqn:Hg;
    [|intros [= <- <-]; discriminate].
  destruct (g_people_map g) as [roster|] eqn:Hpm;
    [|intros [= <- <-]; discriminate].
  destruct (flt 3%nat); [intros [= <- <-]; discriminate|].
  intros [= <- <-] _. exists u, gid, g, roster.
  repeat split; assumption.
Qed.

Lemma filter_none {A} (P : A → Prop) `{∀ x, Decision (P x)} (l : list A) :
  (∀ x, x ∈ l → ¬ P x) → filter P l = [].
Proof.
  induction l as [|x l IH]; intros Hno; [reflexivity|].
  rewrite filter_cons_False by (apply Hno; left).
  apply IH. intros y Hy. apply Hno. right. exact Hy.
Qed.

Lemma filter_all {A} (P : A → Prop) `{∀ x, Decision (P x)} (l : list A) :
  Forall P l → filter P l = l.
Proof.
  induction 1 as [|x l Hx _ IH]; [reflexivity|].
  rewrite filter_cons_True by exact Hx. rewrite IH. reflexivity.
Qed.

(** C3. A nomination that completes (answer 201) went into a group that
    has a roster, created one event, pending, with a fresh id, and created
    exactly one ballot per roster entry for it: as many ballots as the
    roster has entries, each referring to the new event, unreviewed and
    not approved, no two for the same reviewer, each carrying the id and
    the name of a roster entry, and every roster entry served. When no
    older ballot refers to the new id, these are all the ballots of the
    event. *)
Theorem add_event_ballots flt req d resp d' :
  run (add_event flt req) d = (resp, d') →
  status resp = 201 →
  ∃ gid g roster e created,
    groupName req = Some gid
    ∧ group_by_id gid d = Data g
    ∧ g_people_map g = Some roster
    ∧ events d' = events d ++ [e]
    ∧ e_event_id e = next_event_id d
    ∧ e_group_name e = gid
    ∧ e_is_approved e = false
    ∧ pending d' = pending d ++ created
    ∧ length created = size roster
    ∧ Forall (λ b, p_event_id b = e_event_id e
                   ∧ p_reviewed b = false ∧ p_approved b = false) created
    ∧ NoDup (p_user_id_of_reviewer <$> created)
    ∧ (∀ b, b ∈ created →
            roster !! p_user_id_of_reviewer b = Some (p_name_of_reviewer b))
    ∧ (∀ rid rname, roster !! rid = Some rname →
            ∃ b, b ∈ created ∧ p_user_id_of_reviewer b = rid
                 ∧ p_name_of_reviewer b = rname)
    ∧ ((∀ p, p ∈ pending d → p_event_id p ≠ e_event_id e) →
       length (filter (λ p, p_event_id p = e_event_id e) (pending d'))
       = size roster).
Proof.
  intros Hrun Hst.
  destruct (add_event_created flt req d resp d' Hrun Hst)
    as (u & gid & g & roster & Hu & Hgid & Hmem & Hg & Hpm & ->).
  pose proof (created_ballots (next_event_id d) (name req) (u_user_id u)
                roster (next_pending_id d)) as [Hpairs Hall].
  simpl in Hpairs, Hall.
  set (created := zip_with _ _ _) in Hpairs, Hall.
  exists gid, g, roster, (new_event req (u_user_id u) gid (next_event_id d)),
         created.
  assert (Hlen : length created = size roster).
  { rewrite <- (length_fmap (λ b, (p_user_id_of_reviewer b, p_name_of_reviewer b))).
    rewrite Hpairs. apply length_map_to_list. }
  assert (Hevent : Forall (λ b, p_event_id b = next_event_id d) created).
  { eapply Forall_impl; [exact Hall|]. intros b Hb. apply Hb. }
  repeat split; try assumption; try reflexivity.
  - eapply Forall_impl; [exact Hall|]. simpl. intros b (? & ? & ? & _).
    repeat split; assumption.
  - replace (p_user_id_of_reviewer <$> created)
      with ((map_to_list roster).*1).
    + apply NoDup_fst_map_to_list.
    + rewrite <- Hpairs, <- list_fmap_compose. reflexivity.
  - intros b Hb. apply elem_of_map_to_list. rewrite <- Hpairs.
    apply (list_elem_of_fmap_2
             (λ b, (p_user_id_of_reviewer b, p_name_of_reviewer b))).
    exact Hb.
  - intros rid rname Hr. apply elem_of_map_to_list in Hr.
    rewrite <- Hpairs in Hr.
    apply list_elem_of_fmap in Hr as (b & [= -> ->] & Hb).
    exists b. repeat split. exact Hb.
  - intros Hfresh. simpl.
    change (zip_with _ _ _) with created.
    rewrite filter_app, filter_none, filter_all; [| exact Hevent |].
    + simpl. exact Hlen.
    + intros p Hp. apply Hfresh. exact Hp.
Qed.

Lemma add_event_ballots_witness :
  status (run (add_event reliable (nominate "Zed" (PNumber 10) "g"))
              store_newcomer).1 = 201
  ∧ ∃ created,
      pending (run (add_event reliable (nominate "Zed" (PNumber 10) "g"))
                   store_newcomer).2 = created
      ∧ length created = 4%nat.
Proof.
  split; [vm_compute; reflexivity|].
  destruct (add_event_ballots reliable (nominate "Zed" (PNumber 10) "g")
              store_newcomer
              (run (add_event reliable (nominate "Zed" (PNumber 10) "g"))
                   store_newcomer).1
              (run (add_event reliable (nominate "Zed" (PNumber 10) "g"))
                   store_newcomer).2)
    as (gid & g & roster & e & created & Hgid & Hg & Hpm & _ & _ & _ & _
        & Hpending & Hlen & _).
  - vm_compute; reflexivity.
  - vm_compute; reflexivity.
  - exists created. split; [exact Hpending|].
    injection Hgid as <-.
    assert (Hroster : Some roster = Some roster_of_four).
    { rewrite <- Hpm. vm_compute in Hg. injection Hg as <-. reflexivity. }
    injection Hroster as ->. rewrite Hlen. vm_compute. reflexivity.
Defined.

(** Membership that contains the submitted group has no [null] entry, so
    the comparison log does not throw and the test of line 67 passes. *)
Lemma member_passes u gid :
  Some gid ∈ user_groups (u_group_name u) →
  (∃ ms, exact_matches (user_groups (u_group_name u)) (Some gid) = inr ms)
  ∧ includes (user_groups (u_group_name u)) (Some gid) = true.
Proof.
  intros Hmem. split.
  - destruct (user_groups_strings (u_group_name u)) as [gs ->].
    + intros Hnull. rewrite Hnull in Hmem. simpl in Hmem.
      apply list_elem_of_singleton in Hmem. discriminate.
    + apply exact_matches_strings.
  - simpl. apply bool_decide_eq_true. exact Hmem.
Qed.




Example parseInt_prefix : parseInt (PText "12abc") = Some 12.
Proof. reflexivity. Qed.

Example parseInt_signed_hex : parseInt (PText "  -0x1F") = Some (-31).
Proof. reflexivity. Qed.

Example parseInt_words : parseInt (PText "a lot") = None.
Proof. reflexivity. Qed.

Example parseInt_empty : parseInt (PText "") = None.
Proof. reflexivity. Qed.

Lemma exact_matches_mismatch gs gid :
  Some gid ∉ (Some <$> gs : list (option string)) →
  exact_matches (Some <$> gs) (Some gid)
  = inr ((λ g, {| em_group := g; em_matches := false;
                  em_submittedLength := String.length gid;
                  em_groupLength := String.length g |}) <$> gs).
Proof.
  induction gs as [|g gs IH]; intros Hnot; [reflexivity|].
  rewrite fmap_cons in Hnot. apply not_elem_of_cons in Hnot as [Hg Hrest].
  rewrite !fmap_cons. cbn [exact_matches]. rewrite IH by exact Hrest.
  rewrite bool_decide_eq_false_2 by congruence. reflexivity.
Qed.

(** The membership test on a nominee whose group field holds strings: the
    answer is 400 with the diagnostic payload, and the store is as it was. *)
Lemma add_event_not_member flt req d u gid gs :
  flt 0%nat = None →
  user_by_name (name req) d = Data u →
  groupName req = Some gid →
  user_groups (u_group_name u) = Some <$> gs →
  gid ∉ gs →
  run (add_event flt req) d =
    ({| status := 400;
        json := ErrorDebug not_a_member (mismatch_payload u gid gs) |}, d).
Proof.
  intros H0 Hu Hgid Hgs Hnot.
  assert (Hnot' : Some gid ∉ (Some <$> gs : list (option string))).
  { intros Hin. apply list_elem_of_fmap in Hin as (g & [= ->] & Hg).
    contradiction. }
  unfold add_event. unfold_route.
  rewrite H0, Hu, Hgid, Hgs, (exact_matches_mismatch gs gid Hnot').
  simpl. rewrite bool_decide_eq_false_2 by exact Hnot'. reflexivity.
Qed.

(** C4, on a nominee who belongs to no group: the membership value does
    not contain the submitted group, and the route answers 500 with the
    message of the [TypeError] thrown by the comparison log of lines
    56-65, not the not-a-member answer of line 68. No event is created. *)
Theorem add_event_null_membership :
  user_by_name "Nia" store_newcomer = Data nia
  ∧ includes (user_groups (u_group_name nia)) (Some "g") = false
  ∧ run (add_event reliable (nominate "Nia" (PNumber 10) "g")) store_newcomer
    = ({| status := 500; json := Error null_length_error |}, store_newcomer).
Proof. vm_compute. repeat split. Qed.

(** Scenario C of the specification, on a nominee of another group. *)
Example scenario_C :
  run (add_event reliable (nominate "Zed" (PNumber 10) "tiny")) store_newcomer
  = ({| status := 400;
        json := ErrorDebug not_a_member (mismatch_payload zed "tiny" ["g"]) |},
     store_newcomer).
Proof.
  apply add_event_not_member.
  - reflexivity.
  - vm_compute; reflexivity.
  - reflexivity.
  - reflexivity.
  - intros Hin. apply list_elem_of_singleton in Hin. discriminate.
Qed.

(** ** Pending reviews *)

Lemma find_events_in (x : Z) (ids : list Z) (gid : string) (evs : list event_row) :
  x ∈ ids →
  find (λ e, bool_decide (e_event_id e = x))
       (filter (λ e, e_event_id e ∈ ids ∧ e_group_name e = gid) evs)
  = find (λ e, bool_decide (e_event_id e = x ∧ e_group_name e = gid)) evs.
Proof.
  intros Hx. induction evs as [|e evs IH]; [reflexivity|].
  rewrite filter_cons. simpl.
  destruct (decide (e_event_id e ∈ ids ∧ e_group_name e = gid)) as [[Hid Hg]|Hno].
  - simpl. rewrite IH.
    destruct (decide (e_event_id e = x)) as [He|He].
    + rewrite (bool_decide_eq_true_2 _ He).
      rewrite (bool_decide_eq_true_2 _ (conj He Hg)). reflexivity.
    + rewrite (bool_decide_eq_false_2 _ He).
      rewrite bool_decide_eq_false_2 by (intros [He' _]; contradiction).
      reflexivity.
  - rewrite IH. rewrite bool_decide_eq_false_2; [reflexivity|].
    intros [He Hg]. apply Hno. split; [rewrite He; exact Hx|exact Hg].
Qed.

Lemma omap_step {A B} (f : A → option B) (x : A) (l : list A) :
  omap f (x :: l) = match f x with
                    | Some y => y :: omap f l
                    | None => omap f l
                    end.
Proof. reflexivity. Qed.

(** The two queries of the route compute the join. *)
Lemma combine_join (ps : list pending_row) (ids : list Z) gid d :
  (∀ p, p ∈ ps → p_event_id p ∈ ids) →
  combinedData ps (events_in ids gid d)
  = omap (λ p, (λ e, (p, e)) <$> event_of gid d p) ps.
Proof.
  unfold combinedData, events_in, event_of.
  induction ps as [|p ps IH]; intros Hids; [reflexivity|].
  rewrite !omap_step. rewrite find_events_in by (apply Hids; left).
  rewrite IH by (intros q Hq; apply Hids; right; exact Hq). reflexivity.
Qed.

Lemma event_of_Some gid d p e :
  event_of gid d p = Some e →
  e ∈ events d ∧ e_event_id e = p_event_id p ∧ e_group_name e = gid.
Proof.
  unfold event_of. intros Hfind. apply find_some in Hfind as [Hin Hb].
  apply bool_decide_eq_true in Hb. split; [apply list_elem_of_In; exact Hin|exact Hb].
Qed.

Lemma event_of_is_Some gid d p : is_Some (event_of gid d p) ↔ has_event gid d p.
Proof.
  unfold has_event. rewrite Exists_exists. split.
  - intros [e He]. exists e. apply event_of_Some in He as (? & ? & ?). auto.
  - intros (e & Hin & He). unfold event_of.
    destruct (find _ _) as [e'|] eqn:Hfind; [eexists; reflexivity|].
    apply list_elem_of_In in Hin.
    apply (find_none _ _ Hfind) in Hin.
    apply bool_decide_eq_false in Hin. contradiction.
Qed.

Lemma join_ballots gid d ps :
  (omap (λ p, (λ e, (p, e)) <$> event_of gid d p) ps).*1
  = filter (has_event gid d) ps.
Proof.
  induction ps as [|p ps IH]; [reflexivity|].
  rewrite filter_cons, omap_step.
  destruct (decide (has_event gid d p)) as [Hp|Hp].
  - apply event_of_is_Some in Hp as [e He]. rewrite He. simpl.
    rewrite <- IH. reflexivity.
  - destruct (event_of gid d p) as [e|] eqn:He; [|exact IH].
    exfalso. apply Hp, event_of_is_Some. eexists. exact He.
Qed.

Lemma join_events gid d ps :
  Forall (λ r, r.2 ∈ events d ∧ e_event_id r.2 = p_event_id r.1
               ∧ e_group_name r.2 = gid)
         (omap (λ p, (λ e, (p, e)) <$> event_of gid d p) ps).
Proof.
  induction ps as [|p ps IH]; [constructor|].
  rewrite omap_step. destruct (event_of gid d p) as [e|] eqn:He; [|exact IH].
  simpl. constructor; [|exact IH]. simpl. eapply event_of_Some. exact He.
Qed.

(** C9. A pending-reviews query with both parameters present, on a store
    that serves its reads, is answered 200 and leaves the store as it is.
    The ballots of the answer are, in table order, exactly the ballots of
    the reviewer with [reviewed = false] whose event exists in the
    submitted group; each comes with an event of that group that carries
    its event id; a ballot whose event is missing or in another group is
    left out without an error; and with no unreviewed ballot the answer is
    the empty list. *)
Theorem pending_reviews_join flt gid uid d :
  gid ≠ "" → uid ≠ "" →
  flt 0%nat = None →
  unreviewed_of uid d = [] ∨ flt 1%nat = None →
  ∃ rows,
    run (pending_reviews flt (Some gid) (Some uid)) d =
      ({| status := 200; json := Combined rows |}, d)
    ∧ rows.*1 = filter (λ p, (p_user_id_of_reviewer p = uid
                              ∧ p_reviewed p = false)
                             ∧ has_event gid d p) (pending d)
    ∧ Forall (λ r, r.2 ∈ events d ∧ e_event_id r.2 = p_event_id r.1
                   ∧ e_group_name r.2 = gid) rows
    ∧ (∀ p, ¬ has_event gid d p → p ∉ rows.*1)
    ∧ (unreviewed_of uid d = [] → rows = []).
Proof.
  intros Hg Hu H0 H1.
  exists (omap (λ p, (λ e, (p, e)) <$> event_of gid d p) (unreviewed_of uid d)).
  assert (Hballots :
    (omap (λ p, (λ e, (p, e)) <$> event_of gid d p) (unreviewed_of uid d)).*1
    = filter (λ p, (p_user_id_of_reviewer p = uid ∧ p_reviewed p = false)
                   ∧ has_event gid d p) (pending d)).
  { rewrite join_ballots. unfold unreviewed_of.
    rewrite list_filter_filter. apply list_filter_iff.
    intros p. tauto. }
  split; [|split; [exact Hballots|split; [apply join_events|split]]].
  - unfold pending_reviews.
    rewrite !bool_decide_eq_false_2 by assumption. simpl.
    unfold_route. rewrite H0.
    destruct (unreviewed_of uid d) as [|p ps] eqn:Hps; [reflexivity|].
    destruct H1 as [H1|H1]; [discriminate|]. rewrite H1.
    rewrite combine_join; [reflexivity|].
    intros q Hq.
    apply (list_elem_of_fmap_2 p_event_id) in Hq. exact Hq.
  - intros p Hp Hin. rewrite Hballots in Hin.
    apply list_elem_of_filter in Hin as [[_ Hhas] _]. contradiction.
  - intros ->. reflexivity.
Qed.

(** ** Leaderboard *)

Section Before.
Context {A : Type}.
Implicit Types (a b x : A) (l : list A).





End Before.



Section StableSortFacts.
Context {A : Type} (keeps : A → A → bool).
Hypothesis keeps_total : ∀ x y, keeps x y = false → keeps y x = true.
Hypothesis keeps_trans :
  ∀ x y z, keeps x y = true → keeps y z = true → keeps x z = true.






End StableSortFacts.




Lemma obj_get_None o k : obj_get o k = None ↔ k ∉ o.*1.
Proof.
  induction o as [|[k' v'] o IH]; simpl.
  - split; [intros _; apply not_elem_of_nil|reflexivity].
  - rewrite not_elem_of_cons.
    destruct (decide (k' = k)) as [->|Hne].
    + split; [discriminate|intros [Hk _]; contradiction].
    + rewrite IH. split; [intros H; split; [congruence|exact H]|intros [_ H]; exact H].
Qed.
























(** Scenario D of the specification: two approved events of 10 and 15
    points and a pending one of 100 give Alice 25. *)
Example scenario_D :
  run (dashboard_results reliable (Some "g")) store_alice
  = ({| status := 200;
        json := TopUsers [ {| tu_name := "Alice"; tu_total_aura_points := 25 |} ]
     |}, store_alice).
Proof. vm_compute. reflexivity. Qed.

Lemma pending_reviews_join_witness :
  ∃ rows,
    run (pending_reviews reliable (Some "g") (Some "r1")) store_orphan
      = ({| status := 200; json := Combined rows |}, store_orphan)
    ∧ rows.*1 = [ballot 1 1 "r1" false false].
Proof.
  destruct (pending_reviews_join reliable "g" "r1" store_orphan)
    as (rows & Hrun & Hballots & _).
  - discriminate.
  - discriminate.
  - reflexivity.
  - right. reflexivity.
  - exists rows. split; [exact Hrun|]. rewrite Hballots.
    vm_compute. reflexivity.
Defined.

(** Scenario E of the specification: no unreviewed ballot, an empty list. *)
Example scenario_E :
  run (pending_reviews reliable (Some "g") (Some "r9")) store_orphan
  = ({| status := 200; json := Combined [] |}, store_orphan).
Proof. vm_compute. reflexivity. Qed.

(** * Further properties *)

(** ** Nomination intake: failures and effects *)

(** The three ways a nomination can leave the store: untouched, with the
    event alone, or with the event and its ballots. *)
Lemma add_event_effect flt req d :
  (run (add_event flt req) d).2 = d
  ∨ ∃ u gid,
      user_by_name (name req) d = Data u
      ∧ groupName req = Some gid
      ∧ Some gid ∈ user_groups (u_group_name u)
      ∧ ((run (add_event flt req) d).2 = event_inserted req u gid d
         ∨ ∃ g roster,
             group_by_id gid d = Data g
             ∧ g_people_map g = Some roster
             ∧ (run (add_event flt req) d).2 = nominated req u gid roster d).
Proof.
  unfold add_event. unfold_route.
  destruct (flt 0%nat); [left; reflexivity|].
  destruct (user_by_name (name req) d) as [u|] eqn:Hu; [|left; reflexivity].
  destruct (exact_matches _ _) as [thrown|ms]; [left; reflexivity|].
  destruct (includes _ _) eqn:Hin; simpl; [|left; reflexivity].
  apply includes_Some in Hin as (gid & Hgid & Hmem). rewrite Hgid. simpl.
  destruct (flt 1%nat); [left; reflexivity|].
  right. exists u, gid. repeat split; try assumption.
  destruct (flt 2%nat); [left; reflexivity|].
  change (group_by_id gid _) with (group_by_id gid d).
  destruct (group_by_id gid d) as [g|] eqn:Hg; [|left; reflexivity].
  destruct (g_people_map g) as [roster|] eqn:Hpm; [|left; reflexivity].
  destruct (flt 3%nat); [left; reflexivity|].
  right. exists g, roster. repeat split; assumption.
Qed.

Lemma single_Failed {A} (rows : list A) :
  length rows ≠ 1%nat → single rows = Failed single_error.
Proof. destruct rows as [|r [|r' rows]]; simpl; intros H; [reflexivity|lia|reflexivity]. Qed.

Lemma single_Data {A} (rows : list A) r : single rows = Data r → rows = [r].
Proof. destruct rows as [|r0 [|r' rows]]; simpl; congruence. Qed.

(** X1. A nomination whose nominee cannot be resolved is refused with 400
    and leaves the store as it is: the users read fails, or no user or
    more than one user carries the submitted name. *)
Theorem add_event_nominee_not_found flt req d :
  flt 0%nat ≠ None
  ∨ length (filter (λ u, u_name u = name req) (users d)) ≠ 1%nat →
  run (add_event flt req) d
  = ({| status := 400; json := Error nominee_not_found |}, d).
Proof.
  intros Hfail. unfold add_event. unfold_route.
  destruct (flt 0%nat) as [m|] eqn:H0; [reflexivity|].
  destruct Hfail as [Hfail|Hfail]; [contradiction|].
  unfold user_by_name. rewrite single_Failed by exact Hfail. reflexivity.
Qed.

Lemma add_event_nominee_not_found_witness :
  length (filter (λ u, u_name u = "Zed") (users store_namesakes)) = 2%nat
  ∧ run (add_event reliable (nominate "Zed" (PNumber 10) "g")) store_namesakes
    = ({| status := 400; json := Error nominee_not_found |}, store_namesakes).
Proof.
  split; [reflexivity|].
  apply (add_event_nominee_not_found reliable
           (nominate "Zed" (PNumber 10) "g") store_namesakes).
  right. vm_compute. lia.
Defined.

(** X2. No rollback of the event. When the nominee is a member of the
    submitted group and the event insert is served, a failure of a later
    step (the groups read fails, the group has no single row or no roster,
    or the ballots insert fails) is answered 500 and leaves the new event
    in the table, pending, with no ballot created. *)
Theorem add_event_leaves_event flt req d u gid :
  flt 0%nat = None → flt 1%nat = None →
  user_by_name (name req) d = Data u →
  groupName req = Some gid →
  Some gid ∈ user_groups (u_group_name u) →
  flt 2%nat ≠ None
  ∨ (∀ g, group_by_id gid d = Data g → g_people_map g = None)
  ∨ flt 3%nat ≠ None →
  ∃ m,
    run (add_event flt req) d
    = ({| status := 500; json := Error m |}, event_inserted req u gid d)
    ∧ events (event_inserted req u gid d)
      = events d ++ [new_event req (u_user_id u) gid (next_event_id d)]
    ∧ e_is_approved (new_event req (u_user_id u) gid (next_event_id d)) = false
    ∧ pending (event_inserted req u gid d) = pending d.
Proof.
  intros H0 H1 Hu Hgid Hmem Hfail.
  destruct (member_passes u gid Hmem) as [[ms Hms] Hin].
  unfold add_event. unfold_route.
  rewrite H0, Hu, Hgid, Hms, Hin. simpl. rewrite H1.
  change (group_by_id gid _) with (group_by_id gid d).
  destruct (flt 2%nat) as [m2|] eqn:H2.
  { exists group_not_found. repeat split. }
  destruct (group_by_id gid d) as [g|] eqn:Hg.
  2:{ exists group_not_found. repeat split. }
  destruct (g_people_map g) as [roster|] eqn:Hpm.
  2:{ exists group_not_found. repeat split. }
  destruct (flt 3%nat) as [m3|] eqn:H3.
  { exists m3. repeat split. }
  exfalso. destruct Hfail as [Hfail|[Hfail|Hfail]].
  - contradiction.
  - specialize (Hfail g eq_refl). congruence.
  - contradiction.
Qed.

Lemma add_event_leaves_event_witness :
  ∃ m,
    run (add_event reliable (nominate "Ola" (PNumber 5) "gone")) store_lost_group
    = ({| status := 500; json := Error m |},
       event_inserted (nominate "Ola" (PNumber 5) "gone")
         {| u_user_id := "u-Ola"; u_name := "Ola";
            u_group_name := MMany ["gone"; "g"] |} "gone" store_lost_group)
    ∧ length (events (event_inserted (nominate "Ola" (PNumber 5) "gone")
         {| u_user_id := "u-Ola"; u_name := "Ola";
            u_group_name := MMany ["gone"; "g"] |} "gone" store_lost_group))
      = 1%nat.
Proof.
  destruct (add_event_leaves_event reliable
              (nominate "Ola" (PNumber 5) "gone") store_lost_group
              {| u_user_id := "u-Ola"; u_name := "Ola";
                 u_group_name := MMany ["gone"; "g"] |} "gone")
    as (m & Hrun & Hevents & _).
  - reflexivity.
  - reflexivity.
  - vm_compute; reflexivity.
  - reflexivity.
  - simpl. left.
  - right. left. intros g Hg. vm_compute in Hg. discriminate.
  - exists m. split; [exact Hrun|]. rewrite Hevents. reflexivity.
Defined.

(** X3. A nomination without a group name. The nominee has at least one
    group entry: the comparison log reads [.length] of [undefined], and the
    answer is 500 with the message of the [TypeError]. The nominee's group
    array is empty: the answer is the not-a-member 400 with an empty
    comparison list. In both cases the store is as it was. *)
Theorem add_event_without_group_name flt req d u :
  flt 0%nat = None →
  user_by_name (name req) d = Data u →
  groupName req = None →
  run (add_event flt req) d
  = (match user_groups (u_group_name u) with
     | [] => {| status := 400;
                json := ErrorDebug not_a_member
                          {| dbg_userGroups := [];
                             dbg_submittedGroupName := None;
                             dbg_name := u_name u;
                             dbg_exactMatches := [] |} |}
     | _ :: _ => {| status := 500; json := Error undefined_length_error |}
     end, d).
Proof.
  intros H0 Hu Hgid. unfold add_event. unfold_route.
  rewrite H0, Hu, Hgid.
  destruct (user_groups (u_group_name u)) as [|g gs]; reflexivity.
Qed.

Lemma add_event_without_group_name_witness :
  run (add_event reliable
         {| name := "Zed"; auraPoints := PNumber 10;
            description := "helped"; groupName := None |}) store_newcomer
  = ({| status := 500; json := Error undefined_length_error |}, store_newcomer).
Proof.
  apply (add_event_without_group_name reliable
           {| name := "Zed"; auraPoints := PNumber 10;
              description := "helped"; groupName := None |}
           store_newcomer zed).
  - reflexivity.
  - vm_compute; reflexivity.
  - reflexivity.
Defined.

(** ** Review ledger: failures and effects *)

Lemma review_incomplete_validation req :
  review_incomplete req ∨
  ∃ pid eid appr gid, valid_review req pid eid appr gid.
Proof.
  unfold review_incomplete, valid_review.
  destruct (pendingId req) as [pid|]; [|tauto].
  destruct (eventId req) as [eid|]; [|tauto].
  destruct (isApproved req) as [appr|]; [|tauto].
  destruct (groupId req) as [gid|]; [|tauto].
  destruct (decide (pid = 0)) as [->|Hp]; [tauto|].
  destruct (decide (eid = 0)) as [->|He]; [tauto|].
  destruct (decide (gid = "")) as [->|Hg]; [tauto|].
  right. exists pid, eid, appr, gid. repeat split; assumption.
Qed.

(** What a review with a complete body can do to the store and answer. *)
Lemma review_event_effect flt req d pid eid appr gid :
  valid_review req pid eid appr gid →
  (∃ m, run (review_event flt req) d
        = ({| status := 500; json := Error m |}, d))
  ∨ (∃ m, run (review_event flt req) d
          = ({| status := 500; json := Error m |}, decided pid appr d))
  ∨ (∃ g roster,
        group_by_id gid d = Data g ∧ g_people_map g = Some roster
        ∧ let pct := quorum eid roster (decided pid appr d) in
          run (review_event flt req) d
          = ({| status := 200;
                json := Reviewed review_processed pct (reaches_quorum pct) |},
             if reaches_quorum pct then finalized eid (decided pid appr d)
             else decided pid appr d)).
Proof.
  intros Hv. use_valid Hv.
  unfold review_event. rewrite Hpid, Heid, Happr, Hgid.
  rewrite validation_passes by assumption.
  unfold_route.
  destruct (flt 0%nat) as [m|]; [left; eexists; reflexivity|].
  change (group_by_id gid _) with (group_by_id gid d).
  fold (decided pid appr d).
  destruct (flt 1%nat) as [m|]; [right; left; eexists; reflexivity|].
  destruct (group_by_id gid d) as [g|m] eqn:Hg;
    [|right; left; eexists; reflexivity].
  destruct (g_people_map g) as [roster|] eqn:Hpm;
    [|right; left; eexists; reflexivity].
  destruct (flt 2%nat) as [m|]; [right; left; eexists; reflexivity|].
  change (percentage _ _) with (quorum eid roster (decided pid appr d)).
  destruct (reaches_quorum _) eqn:Hq.
  - destruct (flt 3%nat) as [m|]; [right; left; eexists; reflexivity|].
    right. right. exists g, roster. repeat split; try assumption.
    simpl. rewrite Hq. reflexivity.
  - right. right. exists g, roster. repeat split; try assumption.
    simpl. rewrite Hq. reflexivity.
Qed.

Lemma review_event_refused flt req d :
  review_incomplete req →
  run (review_event flt req) d
  = ({| status := 400; json := Error missing_parameters |}, d).
Proof.
  unfold review_incomplete, review_event.
  destruct (pendingId req) as [pid|], (eventId req) as [eid|],
           (isApproved req) as [appr|], (groupId req) as [gid|];
    try reflexivity.
  intros [H|[H|[H|[H|[H|[H|H]]]]]]; try discriminate;
    injection H as ->; try reflexivity.
  - destruct (pid =? 0)%Z; reflexivity.
  - rewrite bool_decide_eq_true_2 by reflexivity.
    destruct (pid =? 0)%Z, (eid =? 0)%Z; reflexivity.
Qed.



(** X5. No rollback of a decision. When the decision write is served and
    the roster cannot be read (the groups read fails, no single row carries
    the group id, or the row has no roster), the answer is 500 and the
    ballot stays decided; the events table is not touched. *)
Theorem review_event_keeps_decision flt req d pid eid appr gid :
  valid_review req pid eid appr gid →
  flt 0%nat = None →
  flt 1%nat ≠ None
  ∨ (∀ g, group_by_id gid d = Data g → g_people_map g = None) →
  ∃ m,
    run (review_event flt req) d
    = ({| status := 500; json := Error m |}, decided pid appr d)
    ∧ pending (decided pid appr d) = update_pending pid appr (pending d)
    ∧ events (decided pid appr d) = events d.
Proof.
  intros Hv H0 Hfail. use_valid Hv.
  unfold review_event. rewrite Hpid, Heid, Happr, Hgid.
  rewrite validation_passes by assumption.
  unfold_route. rewrite H0.
  change (group_by_id gid _) with (group_by_id gid d).
  fold (decided pid appr d).
  destruct (flt 1%nat) as [m|] eqn:H1; [exists m; repeat split|].
  destruct (group_by_id gid d) as [g|m] eqn:Hg; [|exists m; repeat split].
  destruct Hfail as [Hfail|Hfail]; [contradiction|].
  rewrite (Hfail g eq_refl). exists null_keys_error. repeat split.
Qed.

Lemma review_event_keeps_decision_witness :
  ∃ m,
    run (review_event reliable (review 1 1 true "elsewhere")) store_fresh
    = ({| status := 500; json := Error m |}, decided 1 true store_fresh)
    ∧ ballot 1 1 "r1" true true ∈ pending (decided 1 true store_fresh).
Proof.
  destruct (review_event_keeps_decision reliable
              (review 1 1 true "elsewhere") store_fresh 1 1 true "elsewhere")
    as (m & Hrun & _ & _).
  - apply valid_review_intro; [lia | lia | discriminate].
  - reflexivity.
  - right. intros g Hg. vm_compute in Hg. discriminate.
  - exists m. split; [exact Hrun|]. vm_compute. left.
Defined.

(** [50 <= 0 / y * 100] fails for every binary64 [y]: the quotient is a
    zero or [NaN]. *)
Lemma zero_share_below_quorum (y : float) :
  PrimFloat.leb 50%float (PrimFloat.mul (PrimFloat.div 0%float y) 100%float)
  = false.
Proof.
  rewrite FloatAxioms.leb_spec, FloatAxioms.mul_spec, FloatAxioms.div_spec.
  destruct (FloatOps.Prim2SF y) as [s|s| |s m e]; vm_compute; try reflexivity.
  all: destruct s; reflexivity.
Qed.

Lemma no_approval_no_quorum t : reaches_quorum (percentage 0 t) = false.
Proof.
  unfold reaches_quorum, percentage.
  change (js_length 0) with 0%float. apply zero_share_below_quorum.
Qed.

(** X6. An event is never approved without an approval. For a review with
    a complete body, whatever the roster (also an empty one) and whatever
    the store does: when no ballot of the submitted event is approved after
    the decision, the events table is left as it is, and an answer 200
    carries [wasApproved = false]. *)
Theorem review_event_needs_approval flt req d pid eid appr gid :
  valid_review req pid eid appr gid →
  approved_ballots eid (update_pending pid appr (pending d)) = [] →
  events (run (review_event flt req) d).2 = events d
  ∧ ∀ msg pct wasApproved,
      json (run (review_event flt req) d).1 = Reviewed msg pct wasApproved →
      wasApproved = false.
Proof.
  intros Hv Hnone.
  destruct (review_event_effect flt req d pid eid appr gid Hv)
    as [[m Hrun]|[[m Hrun]|(g & roster & _ & _ & Hrun)]];
    simpl in Hrun; rewrite Hrun; simpl.
  - split; [reflexivity|]. intros msg pct w Hj. discriminate.
  - split; [reflexivity|]. intros msg pct w Hj. discriminate.
  - assert (Hq : reaches_quorum (quorum eid roster (decided pid appr d)) = false).
    { unfold quorum, decided. simpl. rewrite Hnone. apply no_approval_no_quorum. }
    rewrite Hq. split; [reflexivity|].
    intros msg pct w [= _ _ <-]. reflexivity.
Qed.

Lemma review_event_needs_approval_witness :
  events (run (review_event reliable (review 1 1 false "g")) store_fresh).2
  = events store_fresh
  ∧ ∀ msg pct wasApproved,
      json (run (review_event reliable (review 1 1 false "g")) store_fresh).1
      = Reviewed msg pct wasApproved →
      wasApproved = false.
Proof.
  apply (review_event_needs_approval reliable (review 1 1 false "g")
           store_fresh 1 1 false "g").
  - apply valid_review_intro; [lia | lia | discriminate].
  - vm_compute; reflexivity.
Defined.




(** ** What no sequence of requests does *)

Lemma dashboard_results_reads flt group_id d :
  (run (dashboard_results flt group_id) d).2 = d.
Proof.
  unfold dashboard_results. destruct group_id as [gid|]; [|reflexivity].
  destruct (bool_decide (gid = "")); [reflexivity|].
  unfold_route. destruct (flt 0%nat); reflexivity.
Qed.

Lemma pending_reviews_reads flt group_id user_id d :
  (run (pending_reviews flt group_id user_id) d).2 = d.
Proof.
  unfold pending_reviews.
  destruct group_id as [gid|]; [|reflexivity].
  destruct user_id as [uid|]; [|reflexivity].
  destruct (_ || _); [reflexivity|].
  unfold_route. destruct (flt 0%nat); [reflexivity|].
  destruct (unreviewed_of uid d); [reflexivity|].
  destruct (flt 1%nat); reflexivity.
Qed.

(** Every request leaves the store as it was or applies one of four
    changes to it. *)
Lemma serve_outcomes flt r d :
  let d' := (run (serve flt r) d).2 in
  d' = d
  ∨ (∃ pid appr, d' = decided pid appr d)
  ∨ (∃ pid appr eid, d' = finalized eid (decided pid appr d))
  ∨ (∃ req u gid, d' = event_inserted req u gid d)
  ∨ (∃ req u gid roster, d' = nominated req u gid roster d).
Proof.
  destruct r as [req|group_id|group_id user_id|req]; simpl.
  - destruct (add_event_effect flt req d)
      as [H|(u & gid & _ & _ & _ & [H|(g & roster & _ & _ & H)])].
    + left. exact H.
    + right. right. right. left. exists req, u, gid. exact H.
    + right. right. right. right. exists req, u, gid, roster. exact H.
  - left. apply dashboard_results_reads.
  - left. apply pending_reviews_reads.
  - destruct (review_incomplete_validation req)
      as [Hinc|(pid & eid & appr & gid & Hv)].
    + left. rewrite (review_event_refused flt req d Hinc). reflexivity.
    + destruct (review_event_effect flt req d pid eid appr gid Hv)
        as [[m Hrun]|[[m Hrun]|(g & roster & _ & _ & Hrun)]];
        simpl in Hrun; rewrite Hrun; simpl.
      * left. reflexivity.
      * right. left. exists pid, appr. reflexivity.
      * destruct (reaches_quorum _).
        -- right. right. left. exists pid, appr, eid. reflexivity.
        -- right. left. exists pid, appr. reflexivity.
Qed.

(** An invariant of the four changes is an invariant of every sequence of
    requests. *)
Lemma serve_all_invariant (Inv : db → Prop) :
  (∀ d pid appr, Inv d → Inv (decided pid appr d)) →
  (∀ d eid, Inv d → Inv (finalized eid d)) →
  (∀ d req u gid, Inv d → Inv (event_inserted req u gid d)) →
  (∀ d req u gid roster, Inv d → Inv (nominated req u gid roster d)) →
  ∀ rs d, Inv d → Inv (serve_all rs d).
Proof.
  intros Hdec Hfin Hev Hnom rs.
  induction rs as [|[flt r] rs IH]; intros d Hd; [exact Hd|].
  simpl. apply IH.
  destruct (serve_outcomes flt r d)
    as [H|[(pid & appr & H)|[(pid & appr & eid & H)
        |[(req & u & gid & H)|(req & u & gid & roster & H)]]]];
    simpl in H; rewrite H; auto.
Qed.

(** A relation between the store before and after that the four changes
    establish, and that is reflexive and transitive, holds over every
    sequence of requests. *)
Lemma serve_all_history (Rel : db → db → Prop) :
  (∀ d, Rel d d) →
  (∀ d1 d2 d3, Rel d1 d2 → Rel d2 d3 → Rel d1 d3) →
  (∀ d pid appr, Rel d (decided pid appr d)) →
  (∀ d eid, Rel d (finalized eid d)) →
  (∀ d req u gid, Rel d (event_inserted req u gid d)) →
  (∀ d req u gid roster, Rel d (nominated req u gid roster d)) →
  ∀ rs d, Rel d (serve_all rs d).
Proof.
  intros Hrefl Htrans Hdec Hfin Hev Hnom rs.
  induction rs as [|[flt r] rs IH]; intros d; [apply Hrefl|].
  simpl. eapply Htrans; [|apply IH].
  destruct (serve_outcomes flt r d)
    as [H|[(pid & appr & H)|[(pid & appr & eid & H)
        |[(req & u & gid & H)|(req & u & gid & roster & H)]]]];
    simpl in H; rewrite H; auto.
  eapply Htrans; [apply Hdec|apply Hfin].
Qed.

Section Extended.
Context {A : Type} (R : A → A → Prop).
Hypothesis R_refl : ∀ x, R x x.
Hypothesis R_trans : ∀ x y z, R x y → R y z → R x z.

Lemma Forall2_refl_kept (l : list A) : Forall2 R l l.
Proof. induction l; constructor; auto. Qed.

Lemma Forall2_trans_kept (l1 l2 l3 : list A) :
  Forall2 R l1 l2 → Forall2 R l2 l3 → Forall2 R l1 l3.
Proof.
  intros H12. revert l3.
  induction H12 as [|a b l1 l2 Hab _ IH]; intros l3 H23.
  - inversion H23. constructor.
  - inversion H23 as [|? c ? l3' Hbc H23']; subst.
    constructor; [eapply R_trans; eassumption|apply IH; assumption].
Qed.

Lemma extended_refl (l : list A) : extended R l l.
Proof.
  exists l, []. split; [rewrite app_nil_r; reflexivity|apply Forall2_refl_kept].
Qed.

Lemma extended_app (l newer : list A) : extended R l (l ++ newer).
Proof. exists l, newer. split; [reflexivity|apply Forall2_refl_kept]. Qed.

Lemma extended_same (l l' : list A) : Forall2 R l l' → extended R l l'.
Proof. intros H. exists l', []. split; [rewrite app_nil_r; reflexivity|exact H]. Qed.

Lemma extended_trans (l1 l2 l3 : list A) :
  extended R l1 l2 → extended R l2 l3 → extended R l1 l3.
Proof.
  intros (k1 & n1 & -> & H1) (k2 & n2 & -> & H2).
  apply Forall2_app_inv_l in H2 as (k2a & k2b & Ha & Hb & ->).
  exists k2a, (k2b ++ n2). split; [rewrite app_assoc; reflexivity|].
  eapply Forall2_trans_kept; eassumption.
Qed.
End Extended.

Lemma ballot_kept_refl p : ballot_kept p p.
Proof. repeat split; auto. Qed.

Lemma ballot_kept_trans p1 p2 p3 :
  ballot_kept p1 p2 → ballot_kept p2 p3 → ballot_kept p1 p3.
Proof.
  intros (? & ? & ? & ? & ? & ? & ?) (? & ? & ? & ? & ? & ? & ?).
  repeat split; try congruence. auto.
Qed.

Lemma update_pending_kept pid appr ps :
  Forall2 ballot_kept ps (update_pending pid appr ps).
Proof.
  induction ps as [|p ps IH]; simpl; constructor; [|exact IH].
  destruct (decide (p_pending_id p = pid)); repeat split; auto.
Qed.

Lemma history_refl d : history d d.
Proof.
  repeat split; try reflexivity.
  - apply extended_refl, status_kept_refl.
  - apply extended_refl, ballot_kept_refl.
Qed.

Lemma history_trans d1 d2 d3 : history d1 d2 → history d2 d3 → history d1 d3.
Proof.
  intros (Hu & Hg & He & Hp & Hne & Hnp) (Hu' & Hg' & He' & Hp' & Hne' & Hnp').
  repeat split; try congruence; try lia.
  - eapply extended_trans; [apply status_kept_trans|exact He|exact He'].
  - eapply extended_trans; [apply ballot_kept_trans|exact Hp|exact Hp'].
Qed.

Lemma history_decided d pid appr : history d (decided pid appr d).
Proof.
  repeat split; try reflexivity.
  - apply extended_refl, status_kept_refl.
  - apply extended_same, update_pending_kept.
Qed.

Lemma history_finalized d eid : history d (finalized eid d).
Proof.
  repeat split; try reflexivity.
  - apply extended_same, approve_event_kept.
  - apply extended_refl, ballot_kept_refl.
Qed.

Lemma history_event_inserted d req u gid :
  history d (event_inserted req u gid d).
Proof.
  repeat split; try reflexivity; simpl; try lia.
  - apply extended_app, status_kept_refl.
  - apply extended_refl, ballot_kept_refl.
Qed.

Lemma history_nominated d req u gid roster :
  history d (nominated req u gid roster d).
Proof.
  repeat split; try reflexivity; simpl; try lia.
  - apply extended_app, status_kept_refl.
  - apply extended_app, ballot_kept_refl.
Qed.

Lemma serve_all_kept rs d : history d (serve_all rs d).
Proof.
  apply serve_all_history.
  - apply history_refl.
  - apply history_trans.
  - apply history_decided.
  - apply history_finalized.
  - apply history_event_inserted.
  - apply history_nominated.
Qed.

(** X8. Events are never lost. Over every sequence of requests to the four
    routes, whatever the store does, the events table keeps each of its
    rows in place, with its id; a row that was approved is exactly as it
    was, a row that is pending at the end was never changed; new rows come
    after the old ones. No route deletes an event or takes an approval
    back. *)
Theorem events_never_lost rs d :
  ∃ kept newer,
    events (serve_all rs d) = kept ++ newer
    ∧ Forall2 status_kept (events d) kept.
Proof. exact (proj1 (proj2 (proj2 (serve_all_kept rs d)))). Qed.

(** X9. Ballots are never lost. Over every sequence of requests, the
    pending table keeps each ballot in place with its id, its event, its
    nominee and its reviewer; a ballot that was reviewed stays reviewed;
    new ballots come after the old ones. *)
Theorem ballots_never_lost rs d :
  ∃ kept newer,
    pending (serve_all rs d) = kept ++ newer
    ∧ Forall2 ballot_kept (pending d) kept.
Proof. exact (proj1 (proj2 (proj2 (proj2 (serve_all_kept rs d))))). Qed.

(** X10. The workflow never writes to the membership directory: over every
    sequence of requests the users and groups tables are as they were, and
    the id sequences never go back. *)
Theorem directory_never_written rs d :
  users (serve_all rs d) = users d
  ∧ groups (serve_all rs d) = groups d
  ∧ (next_event_id d ≤ next_event_id (serve_all rs d))%Z
  ∧ (next_pending_id d ≤ next_pending_id (serve_all rs d))%Z.
Proof.
  destruct (serve_all_kept rs d) as (Hu & Hg & _ & _ & Hne & Hnp).
  repeat split; assumption.
Qed.

(** X11. No approval without a review. If every ballot that is approved is
    marked reviewed, this still holds after any sequence of requests (new
    ballots start with both flags false, a decision sets [reviewed]). *)
Theorem decisions_stay_consistent rs d :
  decisions_consistent d → decisions_consistent (serve_all rs d).
Proof.
  apply serve_all_invariant; unfold decisions_consistent.
  - intros d0 pid appr H. simpl. unfold update_pending.
    rewrite Forall_forall in *. intros p' Hp'.
    apply list_elem_of_In, in_map_iff in Hp' as (p & <- & Hp).
    destruct (decide (p_pending_id p = pid)); [reflexivity|].
    apply H, list_elem_of_In, Hp.
  - intros d0 eid H. exact H.
  - intros d0 req u gid H. exact H.
  - intros d0 req u gid roster H. simpl. apply Forall_app. split; [exact H|].
    apply created_Forall. intros a i. simpl. discriminate.
Qed.

Lemma decisions_stay_consistent_witness :
  decisions_consistent
    (serve_all [(reliable, AddEvent (nominate "Zed" (PNumber 3) "g"));
                (reliable, ReviewEvent (review 5 2 true "g"));
                (reliable, ReviewEvent (review 1 1 false "g"))]
               store_fresh).
Proof.
  apply (decisions_stay_consistent
           [(reliable, AddEvent (nominate "Zed" (PNumber 3) "g"));
            (reliable, ReviewEvent (review 5 2 true "g"));
            (reliable, ReviewEvent (review 1 1 false "g"))] store_fresh).
  unfold decisions_consistent. simpl.
  repeat constructor; discriminate.
Defined.

Lemma update_pending_ids pid appr ps :
  p_pending_id <$> update_pending pid appr ps = p_pending_id <$> ps.
Proof.
  induction ps as [|p ps IH]; [reflexivity|].
  cbn [update_pending map]. rewrite !fmap_cons.
  fold (update_pending pid appr ps). rewrite IH.
  destruct (decide (p_pending_id p = pid)); reflexivity.
Qed.

Lemma approve_event_ids eid evs :
  e_event_id <$> approve_event eid evs = e_event_id <$> evs.
Proof.
  induction evs as [|e evs IH]; [reflexivity|].
  cbn [approve_event map]. rewrite !fmap_cons.
  fold (approve_event eid evs). rewrite IH.
  destruct (decide (e_event_id e = eid)); reflexivity.
Qed.

(** The ids of the created ballots are the ids the sequence hands out. *)
Lemma created_ids eid nominee uid (entries : list (string * string))
  (ids : list Z) :
  length entries = length ids →
  p_pending_id <$> zip_with (λ row i, row i)
                     (new_ballot eid nominee uid <$> entries) ids
  = ids.
Proof.
  revert ids. induction entries as [|a l IH]; intros [|i ids] Hlen;
    simpl in Hlen; try lia; [reflexivity|].
  rewrite fmap_cons. cbn [zip_with]. rewrite fmap_cons.
  rewrite IH by lia. reflexivity.
Qed.

Lemma well_numbered_decided d pid appr :
  well_numbered d → well_numbered (decided pid appr d).
Proof.
  intros (He & Hp & Hne & Hnp). repeat split; simpl; try assumption.
  - rewrite Forall_forall in *. intros p' Hp'.
    apply update_pending_inv in Hp' as (p & Hin & ->).
    specialize (Hp p Hin).
    destruct (decide (p_pending_id p = pid)); exact Hp.
  - rewrite update_pending_ids. exact Hnp.
Qed.

Lemma well_numbered_finalized d eid :
  well_numbered d → well_numbered (finalized eid d).
Proof.
  intros (He & Hp & Hne & Hnp). repeat split; simpl; try assumption.
  - rewrite Forall_forall in *. intros e' He'.
    unfold approve_event in He'.
    apply list_elem_of_In, in_map_iff in He' as (e & <- & Hin).
    apply list_elem_of_In in Hin. specialize (He e Hin).
    destruct (decide (e_event_id e = eid)); exact He.
  - rewrite approve_event_ids. exact Hne.
Qed.

Lemma well_numbered_event_inserted d req u gid :
  well_numbered d → well_numbered (event_inserted req u gid d).
Proof.
  intros (He & Hp & Hne & Hnp). repeat split; simpl; try assumption.
  - apply Forall_app. split.
    + eapply Forall_impl; [exact He|]. simpl. intros e ?. lia.
    + repeat constructor. simpl. lia.
  - eapply Forall_impl; [exact Hp|]. simpl. intros p ?. lia.
  - rewrite fmap_app. apply NoDup_app. repeat split; [exact Hne| |].
    + intros x Hx Hx'. simpl in Hx'. apply list_elem_of_singleton in Hx'.
      apply list_elem_of_fmap in Hx as (e & -> & Hin).
      rewrite Forall_forall in He. specialize (He e Hin). simpl in He. lia.
    + apply NoDup_singleton.
Qed.

Lemma well_numbered_nominated d req u gid roster :
  well_numbered d → well_numbered (nominated req u gid roster d).
Proof.
  intros Hd.
  destruct (well_numbered_event_inserted d req u gid Hd) as (He & Hp & Hne & _).
  destruct Hd as (_ & _ & _ & Hnp).
  unfold nominated, insert_pending. simpl in *.
  set (entries := map_to_list roster).
  set (rows := new_ballot (next_event_id d) (name req) (u_user_id u) <$> entries).
  set (ids := seqZ (next_pending_id d) (Z.of_nat (length rows))).
  assert (Hlen : length entries = length ids).
  { unfold ids, rows. rewrite length_seqZ, length_fmap. lia. }
  assert (Hids : p_pending_id <$> zip_with (λ row i, row i) rows ids = ids)
    by (apply created_ids; exact Hlen).
  repeat split; try assumption.
  - apply Forall_app. split.
    + eapply Forall_impl; [exact Hp|]. simpl. intros p ?. lia.
    + rewrite Forall_forall. intros p Hin. split.
      * apply (list_elem_of_fmap_2 p_pending_id) in Hin. rewrite Hids in Hin.
        apply elem_of_seqZ in Hin. unfold rows, entries in *. simpl. lia.
      * pose proof (created_Forall
                      (new_ballot (next_event_id d) (name req) (u_user_id u))
                      (λ b, p_event_id b = next_event_id d) entries ids
                      (λ a i, eq_refl)) as Hall.
        rewrite Forall_forall in Hall. rewrite (Hall p Hin). simpl. lia.
  - cbn [pending with_pending]. rewrite fmap_app, Hids.
    apply NoDup_app. repeat split; [exact Hnp| |].
    + intros x Hx Hx'. apply elem_of_seqZ in Hx'.
      apply list_elem_of_fmap in Hx as (p & -> & Hin).
      rewrite Forall_forall in Hp. specialize (Hp p Hin). simpl in Hp. lia.
    + apply NoDup_seqZ.
Qed.

(** X12. The numbering of the store is kept. If the ids of events and
    ballots are below the sequences and pairwise distinct, and every ballot
    refers to an event id that was handed out, this still holds after any
    sequence of requests: a new event and its ballots get fresh ids, and no
    route changes an id. *)
Theorem numbering_is_kept rs d :
  well_numbered d → well_numbered (serve_all rs d).
Proof.
  apply serve_all_invariant.
  - intros; apply well_numbered_decided; assumption.
  - intros; apply well_numbered_finalized; assumption.
  - intros; apply well_numbered_event_inserted; assumption.
  - intros; apply well_numbered_nominated; assumption.
Qed.

Lemma store_fresh_well_numbered : well_numbered store_fresh.
Proof.
  repeat split; simpl.
  - repeat constructor; simpl; lia.
  - repeat constructor; simpl; lia.
  - compute_done.
  - compute_done.
Qed.

Lemma numbering_is_kept_witness :
  well_numbered
    (serve_all [(reliable, AddEvent (nominate "Zed" (PNumber 3) "g"));
                (reliable, ReviewEvent (review 5 2 true "g"))]
               store_fresh).
Proof.
  apply (numbering_is_kept
           [(reliable, AddEvent (nominate "Zed" (PNumber 3) "g"));
            (reliable, ReviewEvent (review 5 2 true "g"))] store_fresh).
  repeat split; simpl.
  - repeat constructor; simpl; lia.
  - repeat constructor; simpl; lia.
  - compute_done.
  - compute_done.
Defined.

(** ** How the routes compose *)

Lemma pending_reviews_served flt gid uid d :
  gid ≠ "" → uid ≠ "" →
  flt 0%nat = None → flt 1%nat = None →
  run (pending_reviews flt (Some gid) (Some uid)) d
  = ({| status := 200;
        json := Combined (omap (λ p, (λ e, (p, e)) <$> event_of gid d p)
                               (unreviewed_of uid d)) |}, d).
Proof.
  intros Hg Hu H0 H1. unfold pending_reviews.
  rewrite !bool_decide_eq_false_2 by assumption. simpl.
  unfold_route. rewrite H0.
  destruct (unreviewed_of uid d) as [|p ps] eqn:Hps; [reflexivity|].
  rewrite H1. rewrite combine_join; [reflexivity|].
  intros q Hq. apply (list_elem_of_fmap_2 p_event_id) in Hq. exact Hq.
Qed.

Lemma find_last {A} (f : A → bool) (l : list A) (x : A) :
  (∀ y, y ∈ l → f y = false) → f x = true → find f (l ++ [x]) = Some x.
Proof.
  intros Hl Hx. induction l as [|y l IH]; simpl.
  - rewrite Hx. reflexivity.
  - rewrite (Hl y) by left. apply IH. intros z Hz. apply Hl. right. exact Hz.
Qed.

(** X13. A nomination reaches its reviewers. In a store with a kept
    numbering, after a nomination answered 201 into a group, every member
    of the roster of that group finds, in the pending reviews of the group,
    a ballot of their own for the new event, unreviewed, paired with the
    new event. *)
Theorem nomination_reaches_reviewers
  flt flt' req d resp d' gid g roster rid rname :
  well_numbered d →
  run (add_event flt req) d = (resp, d') →
  status resp = 201 →
  groupName req = Some gid →
  group_by_id gid d = Data g →
  g_people_map g = Some roster →
  roster !! rid = Some rname →
  gid ≠ "" → rid ≠ "" →
  flt' 0%nat = None → flt' 1%nat = None →
  ∃ rows b e,
    run (pending_reviews flt' (Some gid) (Some rid)) d'
    = ({| status := 200; json := Combined rows |}, d')
    ∧ (b, e) ∈ rows
    ∧ p_user_id_of_reviewer b = rid
    ∧ p_name_of_reviewer b = rname
    ∧ p_reviewed b = false
    ∧ p_event_id b = e_event_id e
    ∧ e_event_id e = next_event_id d
    ∧ e_name e = name req
    ∧ e_group_name e = gid
    ∧ e_is_approved e = false.
Proof.
  intros Hwn Hrun Hst Hgid Hg Hpm Hr Hgne Hrne H0 H1.
  destruct (add_event_created flt req d resp d' Hrun Hst)
    as (u & gid' & g' & roster' & Hu & Hgid' & Hmem & Hg' & Hpm' & ->).
  rewrite Hgid in Hgid'. injection Hgid' as <-.
  rewrite Hg in Hg'. injection Hg' as <-.
  rewrite Hpm in Hpm'. injection Hpm' as <-.
  pose proof (created_ballots (next_event_id d) (name req) (u_user_id u)
                roster (next_pending_id d)) as [Hpairs Hall].
  simpl in Hpairs, Hall.
  set (created := zip_with _ _ _) in Hpairs, Hall.
  set (e := new_event req (u_user_id u) gid (next_event_id d)).
  apply elem_of_map_to_list in Hr. rewrite <- Hpairs in Hr.
  apply list_elem_of_fmap in Hr as (b & Hb & Hin).
  injection Hb as Hrid Hrname.
  rewrite Forall_forall in Hall.
  destruct (Hall b Hin) as (Hbe & Hbr & _).
  rewrite (pending_reviews_served flt' gid rid _ Hgne Hrne H0 H1).
  eexists _, b, e. split; [reflexivity|].
  split; [|repeat split; auto].
  apply list_elem_of_omap. exists b. split.
  - unfold unreviewed_of. apply list_elem_of_filter. split; [auto|].
    simpl. apply elem_of_app. right. exact Hin.
  - unfold event_of. simpl. rewrite find_last; [reflexivity| |].
    + intros y Hy. apply bool_decide_eq_false. intros [Hid _].
      destruct Hwn as (He & _). rewrite Forall_forall in He.
      specialize (He y Hy). lia.
    + apply bool_decide_eq_true. split; [simpl; auto|reflexivity].
Qed.

Lemma nomination_reaches_reviewers_witness :
  ∃ rows b e,
    run (pending_reviews reliable (Some "g") (Some "r3"))
        (run (add_event reliable (nominate "Zed" (PNumber 3) "g")) store_fresh).2
    = ({| status := 200; json := Combined rows |},
       (run (add_event reliable (nominate "Zed" (PNumber 3) "g")) store_fresh).2)
    ∧ (b, e) ∈ rows
    ∧ p_user_id_of_reviewer b = "r3"
    ∧ p_name_of_reviewer b = "Cy"
    ∧ e_event_id e = 2.
Proof.
  destruct (nomination_reaches_reviewers reliable reliable
              (nominate "Zed" (PNumber 3) "g") store_fresh
              (run (add_event reliable (nominate "Zed" (PNumber 3) "g"))
                   store_fresh).1
              (run (add_event reliable (nominate "Zed" (PNumber 3) "g"))
                   store_fresh).2
              "g" group_g roster_of_four "r3" "Cy")
    as (rows & b & e & Hrun & Hin & Hrid & Hrname & _ & _ & Hid & _).
  - repeat split; simpl.
    + repeat constructor; simpl; lia.
    + repeat constructor; simpl; lia.
    + compute_done.
    + compute_done.
  - vm_compute; reflexivity.
  - vm_compute; reflexivity.
  - reflexivity.
  - vm_compute; reflexivity.
  - reflexivity.
  - vm_compute; reflexivity.
  - discriminate.
  - discriminate.
  - reflexivity.
  - reflexivity.
  - exists rows, b, e. repeat split; assumption.
Defined.

Lemma dashboard_results_answer flt group_id d d' :
  (∀ gid, approved_events gid d' = approved_events gid d) →
  (run (dashboard_results flt group_id) d').1
  = (run (dashboard_results flt group_id) d).1.
Proof.
  intros Hsame. unfold dashboard_results.
  destruct group_id as [gid|]; [|reflexivity].
  destruct (bool_decide (gid = "")); [reflexivity|].
  unfold_route. destruct (flt 0%nat); [reflexivity|].
  simpl. rewrite Hsame. reflexivity.
Qed.

(** X14. A nomination alone never moves a leaderboard. Whatever the request
    and the store do, the leaderboard answer for every group is the same
    after a nomination as before: the new event is pending. *)
Theorem nomination_keeps_leaderboard flt flt' req group_id d :
  (run (dashboard_results flt' group_id) (run (add_event flt req) d).2).1
  = (run (dashboard_results flt' group_id) d).1.
Proof.
  apply dashboard_results_answer. intros gid.
  destruct (add_event_effect flt req d)
    as [->|(u & gid' & _ & _ & _ & [->|(g & roster & _ & _ & ->)])].
  - reflexivity.
  - unfold event_inserted, insert_event. simpl.
    unfold approved_events. simpl.
    rewrite filter_app, filter_cons_False, app_nil_r; [reflexivity|].
    intros [_ H]. discriminate.
  - unfold nominated, insert_pending, insert_event. simpl.
    unfold approved_events. simpl.
    rewrite filter_app, filter_cons_False, app_nil_r; [reflexivity|].
    intros [_ H]. discriminate.
Qed.

Lemma pending_reviews_rows flt group_id user_id d rows :
  json (run (pending_reviews flt group_id user_id) d).1 = Combined rows →
  ∃ uid evs, rows = combinedData (unreviewed_of uid d) evs.
Proof.
  unfold pending_reviews.
  destruct group_id as [gid|]; [|discriminate].
  destruct user_id as [uid|]; [|discriminate].
  destruct (_ || _); [discriminate|].
  unfold_route. destruct (flt 0%nat); [discriminate|].
  destruct (unreviewed_of uid d) as [|p ps] eqn:Hps.
  - simpl. intros [= <-]. exists uid, []. rewrite Hps. reflexivity.
  - destruct (flt 1%nat); [discriminate|].
    simpl. intros [= <-]. exists uid. rewrite Hps. eexists. reflexivity.
Qed.

Lemma combinedData_ballot ps evs r : r ∈ combinedData ps evs → r.1 ∈ ps.
Proof.
  unfold combinedData. intros Hr.
  apply list_elem_of_omap in Hr as (p & Hp & Hfind).
  destruct (find _ evs) as [e|]; [|discriminate].
  injection Hfind as <-. exact Hp.
Qed.

(** X15. A decided ballot leaves the pending reviews. Once the decision
    write of a review is served, no pending-reviews answer, for any group
    and reviewer, lists a ballot with the submitted ballot id. *)
Theorem decided_ballot_leaves_pending
  flt flt' req d pid eid appr gid group_id user_id rows :
  valid_review req pid eid appr gid →
  flt 0%nat = None →
  json (run (pending_reviews flt' group_id user_id)
            (run (review_event flt req) d).2).1 = Combined rows →
  ∀ r, r ∈ rows → p_pending_id r.1 ≠ pid.
Proof.
  intros Hv H0 Hrows r Hr Hid.
  apply pending_reviews_rows in Hrows as (uid & evs & ->).
  apply combinedData_ballot in Hr.
  unfold unreviewed_of in Hr. apply list_elem_of_filter in Hr as [[_ Hrev] Hin].
  rewrite (review_event_pending flt req d pid eid appr gid Hv H0) in Hin.
  apply update_pending_inv in Hin as (b & _ & Hb).
  destruct (decide (p_pending_id b = pid)) as [Hb'|Hb'].
  - rewrite Hb in Hrev. discriminate.
  - rewrite Hb in Hid. contradiction.
Qed.

Lemma decided_ballot_leaves_pending_witness :
  json (run (pending_reviews reliable (Some "g") (Some "r2"))
            (run (review_event reliable (review 2 1 true "g"))
                 store_two_events).2).1
  = Combined [(ballot 6 2 "r2" false false, nomination 2 "Zed" 500 false)]
  ∧ p_pending_id (ballot 6 2 "r2" false false, nomination 2 "Zed" 500 false).1
    ≠ 2.
Proof.
  split; [vm_compute; reflexivity|].
  apply (decided_ballot_leaves_pending reliable reliable
           (review 2 1 true "g") store_two_events
           2 1 true "g" (Some "g") (Some "r2")
           [(ballot 6 2 "r2" false false, nomination 2 "Zed" 500 false)]).
  - apply valid_review_intro; [lia | lia | discriminate].
  - reflexivity.
  - vm_compute. reflexivity.
  - left.
Defined.

(** A review answered with a percentage had a complete body and passed
    every step. *)
Lemma review_event_reviewed flt req d msg pct wasApproved :
  json (run (review_event flt req) d).1 = Reviewed msg pct wasApproved →
  ∃ pid eid appr gid,
    valid_review req pid eid appr gid
    ∧ (run (review_event flt req) d).2
      = (if wasApproved then finalized eid (decided pid appr d)
         else decided pid appr d).
Proof.
  intros Hj.
  destruct (review_incomplete_validation req)
    as [Hinc|(pid & eid & appr & gid & Hv)].
  - rewrite (review_event_refused flt req d Hinc) in Hj. discriminate.
  - exists pid, eid, appr, gid. split; [exact Hv|].
    destruct (review_event_effect flt req d pid eid appr gid Hv)
      as [[m Hrun]|[[m Hrun]|(g & roster & _ & _ & Hrun)]];
      simpl in Hrun; rewrite Hrun in Hj |- *; simpl in Hj; try discriminate.
    injection Hj as _ _ <-. reflexivity.
Qed.

Lemma approve_event_elem eid evs e :
  e ∈ evs → e_event_id e = eid → approve_row e ∈ approve_event eid evs.
Proof.
  intros He Hid. unfold approve_event.
  apply list_elem_of_In, in_map_iff. exists e. split.
  - rewrite decide_True by exact Hid. reflexivity.
  - apply list_elem_of_In. exact He.
Qed.

(** X16. An approval reaches the leaderboard of the event's own group.
    When a review is answered with [wasApproved = true], every row of the
    submitted event is approved in the store, and its nominee and points
    are among the rows the leaderboard of the event's group sums, whichever
    group id the review carried. *)
Theorem approval_reaches_leaderboard flt req d msg pct eid e :
  json (run (review_event flt req) d).1 = Reviewed msg pct true →
  eventId req = Some eid →
  e ∈ events d → e_event_id e = eid →
  approve_row e ∈ events (run (review_event flt req) d).2
  ∧ (e_name e, e_aura_points e)
    ∈ approved_events (e_group_name e) (run (review_event flt req) d).2.
Proof.
  intros Hj Heid He Hid.
  destruct (review_event_reviewed flt req d msg pct true Hj)
    as (pid & eid' & appr & gid & Hv & ->).
  destruct Hv as (_ & Heid' & _). rewrite Heid in Heid'. injection Heid' as <-.
  pose proof (approve_event_elem eid (events d) e He Hid) as Hin.
  split; [exact Hin|].
  unfold approved_events.
  apply (list_elem_of_fmap_2 (λ e, (e_name e, e_aura_points e)) _ (approve_row e)).
  apply list_elem_of_filter. split; [split; reflexivity|exact Hin].
Qed.

Lemma approval_reaches_leaderboard_witness :
  approve_row (nomination 2 "Zed" 500 false)
    ∈ events (run (review_event reliable (review 1 2 false "tiny"))
                  store_two_events).2
  ∧ ("Zed", Some 500)
    ∈ approved_events "g"
        (run (review_event reliable (review 1 2 false "tiny"))
             store_two_events).2.
Proof.
  apply (approval_reaches_leaderboard reliable (review 1 2 false "tiny")
           store_two_events review_processed 50%float 2
           (nomination 2 "Zed" 500 false)).
  - vm_compute. reflexivity.
  - reflexivity.
  - simpl. right. left.
  - reflexivity.
Defined.

(** X17. Only an approval moves a leaderboard. A review that is not
    answered with [wasApproved = true] (refused, failed, or below the
    quorum) leaves the leaderboard answer of every group as it was. *)
Theorem review_without_approval_keeps_leaderboard flt flt' req group_id d :
  (∀ msg pct,
      json (run (review_event flt req) d).1 ≠ Reviewed msg pct true) →
  (run (dashboard_results flt' group_id) (run (review_event flt req) d).2).1
  = (run (dashboard_results flt' group_id) d).1.
Proof.
  intros Hnot. apply dashboard_results_answer. intros gid.
  destruct (review_incomplete_validation req)
    as [Hinc|(pid & eid & appr & gid' & Hv)].
  - rewrite (review_event_refused flt req d Hinc). reflexivity.
  - destruct (review_event_effect flt req d pid eid appr gid' Hv)
      as [[m Hrun]|[[m Hrun]|(g & roster & _ & _ & Hrun)]];
      simpl in Hrun; rewrite Hrun in Hnot |- *; simpl in *; try reflexivity.
    destruct (reaches_quorum _); [|reflexivity].
    exfalso. eapply Hnot. reflexivity.
Qed.

Lemma review_without_approval_keeps_leaderboard_witness :
  (run (dashboard_results reliable (Some "g"))
       (run (review_event reliable (review 1 1 true "g")) store_fresh).2).1
  = (run (dashboard_results reliable (Some "g")) store_fresh).1.
Proof.
  apply (review_without_approval_keeps_leaderboard reliable reliable
           (review 1 1 true "g") (Some "g") store_fresh).
  intros msg pct. vm_compute. discriminate.
Defined.

(** ** Leaderboard: how many rows *)





(** ** The points of a nomination *)











(** ** The default group of a user *)






(** ** The quorum on small rosters *)



(** ** Pending reviews: one group per event *)

Lemma combinedData_row ps evs r :
  r ∈ combinedData ps evs →
  r.1 ∈ ps ∧ r.2 ∈ evs ∧ e_event_id r.2 = p_event_id r.1.
Proof.
  unfold combinedData. intros Hr.
  apply list_elem_of_omap in Hr as (p & Hp & Hfind).
  destruct (find _ evs) as [e|] eqn:He; [|discriminate].
  injection Hfind as <-. simpl.
  apply find_some in He as [Hin Hid]. apply bool_decide_eq_true in Hid.
  split; [exact Hp|]. split; [apply list_elem_of_In; exact Hin|exact Hid].
Qed.

(** Every row of a pending-reviews answer pairs an unreviewed ballot of the
    reviewer with an event of the submitted group. *)
Lemma pending_reviews_row flt group_id user_id d rows r :
  json (run (pending_reviews flt group_id user_id) d).1 = Combined rows →
  r ∈ rows →
  ∃ gid uid,
    group_id = Some gid ∧ user_id = Some uid
    ∧ r.1 ∈ unreviewed_of uid d
    ∧ r.2 ∈ events d
    ∧ e_event_id r.2 = p_event_id r.1
    ∧ e_group_name r.2 = gid.
Proof.
  unfold pending_reviews.
  destruct group_id as [gid|]; [|discriminate].
  destruct user_id as [uid|]; [|discriminate].
  destruct (_ || _); [discriminate|].
  unfold_route. destruct (flt 0%nat); [discriminate|].
  destruct (unreviewed_of uid d) as [|p ps] eqn:Hps.
  - simpl. intros [= <-] Hr. apply elem_of_nil in Hr. destruct Hr.
  - destruct (flt 1%nat); [discriminate|].
    cbn [json fst]. intros [= <-] Hr.
    change (r ∈ combinedData (p :: ps)
                  (events_in (p_event_id <$> p :: ps) gid d)) in Hr.
    apply combinedData_row in Hr as (Hb & He & Hid).
    unfold events_in in He. apply list_elem_of_filter in He as [[_ Hg] He].
    exists gid, uid. repeat split; try assumption.
    rewrite Hps. exact Hb.
Qed.

Lemma NoDup_fmap_eq {A B} (f : A → B) (l : list A) x y :
  NoDup (f <$> l) → x ∈ l → y ∈ l → f x = f y → x = y.
Proof.
  induction l as [|a l IH]; intros Hnd Hx Hy Hf.
  - apply elem_of_nil in Hx. destruct Hx.
  - rewrite fmap_cons in Hnd. apply NoDup_cons in Hnd as [Ha Hnd].
    apply elem_of_cons in Hx as [->|Hx], Hy as [->|Hy].
    + reflexivity.
    + exfalso. apply Ha. rewrite Hf. apply list_elem_of_fmap_2, Hy.
    + exfalso. apply Ha. rewrite <- Hf. apply list_elem_of_fmap_2, Hx.
    + apply IH; assumption.
Qed.

(** X23. One group per event in the pending reviews. When the event ids of
    the store are pairwise distinct, two rows of pending-reviews answers
    (for any groups and reviewers) whose ballots refer to the same event
    carry the same event row and were asked for the same group: the
    ballots of an event are never listed under another group. *)
Theorem pending_reviews_one_group
  flt1 flt2 gid1 gid2 user1 user2 d rows1 rows2 r1 r2 :
  NoDup (e_event_id <$> events d) →
  json (run (pending_reviews flt1 (Some gid1) user1) d).1 = Combined rows1 →
  json (run (pending_reviews flt2 (Some gid2) user2) d).1 = Combined rows2 →
  r1 ∈ rows1 → r2 ∈ rows2 →
  p_event_id r1.1 = p_event_id r2.1 →
  gid1 = gid2 ∧ r1.2 = r2.2.
Proof.
  intros Hnd Hrows1 Hrows2 Hr1 Hr2 Hsame.
  destruct (pending_reviews_row _ _ _ _ _ _ Hrows1 Hr1)
    as (g1 & u1 & [= <-] & _ & _ & He1 & Hid1 & Hg1).
  destruct (pending_reviews_row _ _ _ _ _ _ Hrows2 Hr2)
    as (g2 & u2 & [= <-] & _ & _ & He2 & Hid2 & Hg2).
  assert (Heq : r1.2 = r2.2).
  { apply (NoDup_fmap_eq e_event_id (events d)); try assumption. congruence. }
  split; [|exact Heq]. rewrite <- Hg1, <- Hg2, Heq. reflexivity.
Qed.

Lemma pending_reviews_one_group_witness :
  "g" = "g"
  ∧ (ballot 2 1 "r2" false false, nomination 1 "Zed" 10 false).2
    = (ballot 1 1 "r1" false false, nomination 1 "Zed" 10 false).2.
Proof.
  apply (pending_reviews_one_group reliable reliable "g" "g"
           (Some "r2") (Some "r1") store_two_events
           [(ballot 2 1 "r2" false false, nomination 1 "Zed" 10 false);
            (ballot 6 2 "r2" false false, nomination 2 "Zed" 500 false)]
           [(ballot 1 1 "r1" false false, nomination 1 "Zed" 10 false)]).
  - compute_done.
  - vm_compute. reflexivity.
  - vm_compute. reflexivity.
  - left.
  - left.
  - reflexivity.
Defined.
